(** * A shallow embedding of the orchestration core of fabric.py

    The source is a Python 2 program.  This development models:
    - the Python values stored in [ENV] and their [str]/[repr];
    - Python 2's [string % dict] formatting (PyString_Format, for the case
      where the right operand is a dict, which is what [_lazy_format]
      uses), and [string % str] (the [fab_shell] template of [run] and
      [sudo]);
    - [_lazy_format] and the [_LAZY_FORMAT_SUBSTITUTER] regular expression;
    - [partition] and the host string parsing of [_connect];
    - [HostConnection.get_env] and [HostConnection.connect];
    - [_fail], [_try_run_operation], [_rolling_strategy] and
      [_fanout_strategy];
    - the command lines of [run] and [sudo], [_escape_bash_specialchars],
      [_confirm_proceed], [_indent], [_print_help_for];
    - [set], [getAny], [call_once], [local_per_host], [_check_fab_hosts],
      [_on_hosts_do], [_load_default_settings] and [_parse_args] (the last
      two and [set] with [v % ENV] on the raw [ENV] as a parameter).

    Python exceptions are values of [pyexc]; printed lines are collected in
    a list.  Python's recursion limit is modelled by a depth bound: running
    out of depth is the [RuntimeError] Python raises at that limit. *)

From Stdlib Require Import ZArith Ascii String Numbers.DecimalString Lia.
From stdpp Require Import base gmap strings list.

Open Scope string_scope.
Set Warnings "-register-all".
(* stdpp makes [String.append] opaque to [simpl]; the proofs below compute
   with it. *)
#[local] Arguments String.append _ _ : simpl nomatch.

(** ** Exceptions and the result monad *)

Inductive pyexc :=
  | ValueError
  | TypeError
  | KeyError
  | RuntimeError            (* maximum recursion depth exceeded *)
  | SystemExit (code : Z)
  | AuthenticationException (* paramiko *)
  | SSHException            (* paramiko, other than authentication *)
  | Raised (text : string). (* any other exception, with its [str] *)

Inductive res (A : Type) :=
  | Ok (a : A)
  | Err (e : pyexc).
Arguments Ok {A} a.
Arguments Err {A} e.

Global Instance res_ret : MRet res := fun A a => Ok a.
Global Instance res_bind : MBind res := fun A B f m =>
  match m with Ok a => f a | Err e => Err e end.

(** ** Python values *)

Inductive pyval :=
  | PStr (s : string)
  | PInt (z : Z)
  | PBool (b : bool)
  | PNone
  | PList (l : list pyval).

(** Truth value testing. *)
Definition truthy (v : pyval) : bool :=
  match v with
  | PStr s => negb (String.eqb s "")
  | PInt z => negb (Z.eqb z 0)
  | PBool b => b
  | PNone => false
  | PList l => negb (bool_decide (l = []))
  end.

Definition Z_to_string (z : Z) : string :=
  NilEmpty.string_of_int (Z.to_int z).

Definition hex_digit (n : nat) : ascii :=
  ascii_of_nat (if Nat.ltb n 10 then 48 + n else 87 + n).

(** Python 2 [repr] of a [str]: single quotes unless the string contains a
    single quote and no double quote; backslash escapes for the quote, the
    backslash, tab, newline, carriage return and non-printable bytes. *)
Definition repr_char (quote c : ascii) : string :=
  let n := nat_of_ascii c in
  if Ascii.eqb c quote || Ascii.eqb c "\" then String "\" (String c EmptyString)
  else if Ascii.eqb c (ascii_of_nat 9) then "\t"
  else if Ascii.eqb c (ascii_of_nat 10) then "\n"
  else if Ascii.eqb c (ascii_of_nat 13) then "\r"
  else if Nat.ltb n 32 || Nat.leb 127 n then
    String "\" (String "x" (String (hex_digit (n / 16))
                             (String (hex_digit (n mod 16)) EmptyString)))
  else String c EmptyString.

Fixpoint str_has (c : ascii) (s : string) : bool :=
  match s with
  | EmptyString => false
  | String d s' => Ascii.eqb c d || str_has c s'
  end.

Fixpoint concat_map (f : ascii -> string) (s : string) : string :=
  match s with
  | EmptyString => EmptyString
  | String c s' => f c ++ concat_map f s'
  end.

Definition repr_str (s : string) : string :=
  let dq := ascii_of_nat 34 in
  let quote := if str_has "'" s && negb (str_has dq s) then dq else "'"%char in
  String quote (concat_map (repr_char quote) s ++ String quote EmptyString).

Fixpoint join (sep : string) (l : list string) : string :=
  match l with
  | [] => ""
  | [x] => x
  | x :: l' => x ++ sep ++ join sep l'
  end.

(** [str] and [repr] of a value ([repr] differs from [str] only on strings). *)
Fixpoint py_repr (v : pyval) : string :=
  match v with
  | PStr s => repr_str s
  | PInt z => Z_to_string z
  | PBool b => if b then "True" else "False"
  | PNone => "None"
  | PList l => "[" ++ join ", " (map py_repr l) ++ "]"
  end.

Definition py_str (v : pyval) : string :=
  match v with
  | PStr s => s
  | _ => py_repr v
  end.

(** ** Python 2 [string % dict]

    The stringified environment given to [%] is a [gmap string string].
    The text of [str(dict)] (used by a [%s] without a mapping key) depends
    on CPython's hash order, so it is a parameter [dict_repr] of every
    definition below. *)

Section Formatting.

Variable dict_repr : gmap string string -> string.

(** The current argument of the formatter: [args] and whether
    [getnextarg] already consumed it ([argidx = -1] in CPython). *)
Inductive fmt_arg := ArgDict | ArgVal (v : string).

Record argst := { a_src : fmt_arg; a_used : bool }.

Definition getnextarg (a : argst) : res (fmt_arg * argst) :=
  if a_used a then Err TypeError (* not enough arguments for format string *)
  else Ok (a_src a, {| a_src := a_src a; a_used := true |}).

Definition is_digit (c : ascii) : bool :=
  Nat.leb 48 (nat_of_ascii c) && Nat.leb (nat_of_ascii c) 57.

Definition digit_val (c : ascii) : N := N.of_nat (nat_of_ascii c - 48).

(** Skip over balanced parentheses: the key of [%(key)]. *)
Fixpoint scan_key (pcount : nat) (s : string) : option (string * string) :=
  match s with
  | EmptyString => None
  | String c s' =>
      if Ascii.eqb c ")" then
        match pcount with
        | 0 | 1 => Some ("", s')
        | S p => '(k, r) ← scan_key p s'; Some (String c k, r)
        end
      else if Ascii.eqb c "(" then
        '(k, r) ← scan_key (S pcount) s'; Some (String c k, r)
      else '(k, r) ← scan_key pcount s'; Some (String c k, r)
  end.

(** The format cursor: [Some (c, rest)] is the current character [c], with
    [rest] still unread; [None] is [fmtcnt < 0] (the format ran out). *)
Definition cursor := option (ascii * string).

Definition next_cursor (s : string) : cursor :=
  match s with EmptyString => None | String c s' => Some (c, s') end.

Fixpoint take_flags (ljust : bool) (s : string) : bool * cursor :=
  match s with
  | EmptyString => (ljust, None)
  | String c s' =>
      if Ascii.eqb c "-" then take_flags true s'
      else if Ascii.eqb c "+" || Ascii.eqb c " " || Ascii.eqb c "#"
              || Ascii.eqb c "0" then take_flags ljust s'
      else (ljust, Some (c, s'))
  end.

Fixpoint take_digits (acc : N) (s : string) : N * cursor :=
  match s with
  | EmptyString => (acc, None)
  | String c s' =>
      if is_digit c then take_digits (acc * 10 + digit_val c)%N s'
      else (acc, Some (c, s'))
  end.

Definition PY_SSIZE_T_MAX : N := (2 ^ 63 - 1)%N.
Definition INT_MAX : N := (2 ^ 31 - 1)%N.

Fixpoint spaces (n : nat) : string :=
  match n with 0 => "" | S n' => String " " (spaces n') end.

Definition pad (ljust : bool) (width : option N) (t : string) : string :=
  match width with
  | Some w =>
      let k := (N.to_nat w - String.length t)%nat in
      if ljust then t ++ spaces k else spaces k ++ t
  | None => t
  end.

Definition truncate (prec : option N) (t : string) : string :=
  match prec with Some p => substring 0 (N.to_nat p) t | None => t end.

Definition is_numeric_conv (c : ascii) : bool :=
  str_has c "iduoxXeEfFgG".

(** One conversion specifier; [s] is the text after its [%].  Returns the
    converted text, the new argument state and the unread text. *)
Definition format_spec (env : gmap string string) (a : argst) (s : string)
    : res (string * argst * string) :=
  '(a, s) ← match s with
            | String "(" s' =>
                match scan_key 1 s' with
                | None => Err ValueError (* incomplete format key *)
                | Some (key, r) =>
                    match env !! key with
                    | None => Err KeyError
                    | Some v => Ok ({| a_src := ArgVal v; a_used := false |}, r)
                    end
                end
            | _ => Ok (a, s)
            end;
  let '(ljust, cur) := take_flags false s in
  '(width, cur) ← match cur with
                  | Some ("*"%char, _) => Err TypeError (* * wants int *)
                  | Some (c, r) =>
                      if is_digit c then
                        let '(w, cur') := take_digits (digit_val c) r in
                        if N.ltb PY_SSIZE_T_MAX w then Err ValueError
                        else Ok (Some w, cur')
                      else Ok (None, cur)
                  | None => Ok (None, None)
                  end;
  '(prec, cur) ← match cur with
                 | Some ("."%char, r) =>
                     match next_cursor r with
                     | None => Ok (Some 0%N, None)
                     | Some ("*"%char, _) => Err TypeError
                     | Some (c, r') =>
                         if is_digit c then
                           let '(p, cur') := take_digits (digit_val c) r' in
                           if N.ltb INT_MAX p then Err ValueError
                           else Ok (Some p, cur')
                         else Ok (Some 0%N, Some (c, r'))
                     end
                 | _ => Ok (None, cur)
                 end;
  let cur := match cur with
             | Some (c, r) =>
                 if Ascii.eqb c "h" || Ascii.eqb c "l" || Ascii.eqb c "L"
                 then next_cursor r else cur
             | None => None
             end in
  match cur with
  | None => Err ValueError (* incomplete format *)
  | Some (c, rest) =>
      if Ascii.eqb c "%" then Ok (pad ljust width "%", a, rest)
      else
        '(v, a) ← getnextarg a;
        let text :=
          if Ascii.eqb c "s" then
            Ok (truncate prec (match v with ArgDict => dict_repr env | ArgVal t => t end))
          else if Ascii.eqb c "r" then
            Ok (truncate prec (match v with ArgDict => dict_repr env | ArgVal t => repr_str t end))
          else if Ascii.eqb c "c" then
            match v with
            | ArgVal (String ch EmptyString) => Ok (String ch EmptyString)
            | _ => Err TypeError (* %c requires int or char *)
            end
          else if is_numeric_conv c then Err TypeError (* a number is required *)
          else Err ValueError (* unsupported format character *) in
        t ← text; Ok (pad ljust width t, a, rest)
  end.

(** The main loop of PyString_Format; [fuel] bounds the number of steps
    and is the length of the format, each step reading at least one
    character. *)
Fixpoint fmt_loop (fuel : nat) (env : gmap string string) (a : argst)
    (s : string) : res string :=
  match fuel with
  | 0 => Ok s
  | S f =>
      match s with
      | EmptyString => Ok ""
      | String c s' =>
          if Ascii.eqb c "%" then
            '(out, a', rest) ← format_spec env a s';
            r ← fmt_loop f env a' rest; Ok (out ++ r)
          else r ← fmt_loop f env a s'; Ok (String c r)
      end
  end.

(** [s % env] *)
Definition py_format (env : gmap string string) (s : string) : res string :=
  fmt_loop (String.length s) env {| a_src := ArgDict; a_used := false |} s.

(** ** [_lazy_format]

    [_LAZY_FORMAT_SUBSTITUTER = re.compile(r'\$\((?P<var>\w+?)\)')].
    [\w] is [[a-zA-Z0-9_]] (no LOCALE or UNICODE flag).  Since [\w]
    excludes [)], the lazy [\w+?\)] matches exactly a maximal nonempty run
    of word characters followed by [)]. *)

Definition is_word (c : ascii) : bool :=
  let n := nat_of_ascii c in
  (Nat.leb 48 n && Nat.leb n 57) || (Nat.leb 65 n && Nat.leb n 90)
  || (Nat.leb 97 n && Nat.leb n 122) || Nat.eqb n 95.

(** The longest prefix of word characters, and the rest. *)
Fixpoint word_prefix (s : string) : string * string :=
  match s with
  | String c s' =>
      if is_word c then let '(w, r) := word_prefix s' in (String c w, r)
      else ("", s)
  | EmptyString => ("", "")
  end.

(** A match of the pattern at the start of [s]: the [var] group and the
    text after the match. *)
Definition match_token (s : string) : option (string * string) :=
  match s with
  | String "$" (String "(" s') =>
      let '(w, r) := word_prefix s' in
      match w, r with
      | String _ _, String ")" r' => Some (w, r')
      | _, _ => None
      end
  | _ => None
  end.

(** [re.sub(pattern, repl, t)]: scans [t] left to right and calls [repl]
    on the [var] group of each match in turn; [n] bounds the scan by the
    length of [t] (each step reads at least one character). *)
Fixpoint re_sub (repl : string -> res string) (n : nat) (t : string) : res string :=
  match n with
  | 0 => Ok t
  | S n' =>
      match t with
      | EmptyString => Ok ""
      | String c t' =>
          match match_token t with
          | Some (var, rest) => r ← repl var; r' ← re_sub repl n' rest; Ok (r ++ r')
          | None => r' ← re_sub repl n' t'; Ok (String c r')
          end
      end
  end.

(** [_lazy_format] on an already stringified environment.  [depth] is the
    remaining Python recursion depth. *)
Fixpoint lazy_format (depth : nat) (env : gmap string string) (string0 : string)
    : res string :=
  match depth with
  | 0 => Err RuntimeError
  | S d =>
      let replacer_fn (var : string) : res string :=
        match env !! var with
        | Some v => v' ← py_format env v; lazy_format d env v'
        | None => Ok ("$(" ++ var ++ ")")
        end in
      s ← py_format env string0; re_sub replacer_fn (String.length s) s
  end.

(** [_lazy_format(string, env)]: [None] passes through; otherwise the
    values of [env] are replaced by their [str]. *)
Definition _lazy_format (depth : nat) (env : gmap string pyval)
    (string0 : option string) : res (option string) :=
  match string0 with
  | None => Ok None
  | Some s => r ← lazy_format depth (py_str <$> env) s; Ok (Some r)
  end.

End Formatting.

(** ** Events: what a run prints, prompts for and invokes *)

Inductive event :=
  | Print (line : string)
  | Prompt (text : string)          (* getpass.getpass(text) *)
  | Invoke (host : pyval) (client : option nat)
  | ThreadTraceback (e : pyexc).    (* threading reports an uncaught error *)

Definition io (A : Type) := (list event * res A)%type.

Definition io_ret {A} (a : A) : io A := ([], Ok a).
Definition io_err {A} (e : pyexc) : io A := ([], Err e).
Definition io_bind {A B} (m : io A) (f : A -> io B) : io B :=
  match m with
  | (o, Ok a) => let '(o', r) := f a in ((o ++ o')%list, r)
  | (o, Err e) => (o, Err e)
  end.
Definition io_emit (ev : event) : io unit := ([ev], Ok tt).
Definition io_lift {A} (r : res A) : io A := ([], r).

Global Instance io_mret : MRet io := @io_ret.
Global Instance io_mbind : MBind io := fun A B f m => io_bind m f.

(** ** [_indent] *)

Definition LF : ascii := ascii_of_nat 10.
Definition CR : ascii := ascii_of_nat 13.

(** The pieces of [s] between line breaks ([\n], [\r], [\r\n]). *)
Fixpoint line_pieces (s : string) : list string :=
  match s with
  | EmptyString => [""]
  | String c s' =>
      if Ascii.eqb c CR then
        match s' with
        | String d s'' => if Ascii.eqb d LF then "" :: line_pieces s'' else "" :: line_pieces s'
        | EmptyString => "" :: line_pieces s'
        end
      else if Ascii.eqb c LF then "" :: line_pieces s'
      else match line_pieces s' with
           | l :: ls => String c l :: ls
           | [] => [String c EmptyString]
           end
  end.

(** [str.splitlines()]: a trailing empty piece is not a line. *)
Definition splitlines (s : string) : list string :=
  let ps := line_pieces s in
  match last ps with
  | Some "" => removelast ps
  | _ => ps
  end.

Definition _indent (text : string) : string :=
  join (String LF EmptyString) (map (fun line => "    " ++ line) (splitlines text)).

(** ** Operation outcomes *)

Inductive op_outcome :=
  | Returned (v : pyval)            (* the operation returned [v] *)
  | Threw (text : string)           (* it raised an exception [e], [str(e) = text] *)
  | ThrewSystemExit (code : Z).

(** ** Compatibility [partition] (str.partition on a one-character
    separator, the only kind fabric.py passes) *)

Fixpoint partition (txt : string) (sep : ascii) : string * string * string :=
  match txt with
  | EmptyString => ("", "", "")
  | String c t =>
      if Ascii.eqb c sep then ("", String sep EmptyString, t)
      else let '(a, b, r) := partition t sep in (String c a, b, r)
  end.

(** ** Python 2 [int(x)] *)

Definition is_space (c : ascii) : bool :=
  let n := nat_of_ascii c in Nat.eqb n 32 || (Nat.leb 9 n && Nat.leb n 13).

Fixpoint lstrip (s : string) : string :=
  match s with
  | String c s' => if is_space c then lstrip s' else s
  | EmptyString => EmptyString
  end.

(** Leading digits as a number, and the rest. *)
Fixpoint read_digits (acc : Z) (s : string) : Z * string :=
  match s with
  | String c s' =>
      if is_digit c then read_digits (acc * 10 + Z.of_N (digit_val c)) s'
      else (acc, s)
  | EmptyString => (acc, EmptyString)
  end.

(** PyInt_FromString with base 10: blanks, an optional sign (PyOS_strtol),
    blanks again (PyOS_strtoul), at least one digit, trailing blanks. *)
Definition int_of_string (s : string) : res Z :=
  let s := lstrip s in
  let '(neg, s) := match s with
                   | String "-" s' => (true, s')
                   | String "+" s' => (false, s')
                   | _ => (false, s)
                   end in
  match lstrip s with
  | String c s' =>
      if is_digit c then
        let '(n, r) := read_digits (Z.of_N (digit_val c)) s' in
        if String.eqb (lstrip r) "" then Ok (if neg then - n else n)%Z
        else Err ValueError
      else Err ValueError
  | EmptyString => Err ValueError
  end.

Definition py_int (v : pyval) : res Z :=
  match v with
  | PInt z => Ok z
  | PBool b => Ok (if b then 1 else 0)%Z
  | PStr s => int_of_string s
  | _ => Err TypeError
  end.

(** ** Host strings, as [_connect] splits them

    [username] is [ENV['fab_user']] and [def_port] is [ENV['fab_port']]. *)

Definition parse_host (username def_port : pyval) (host : string)
    : res (pyval * string * Z) :=
  let '(user, host_and_port) :=
    if str_has "@" host then
      let '(user, _, host_and_port) := partition host "@" in (Some user, host_and_port)
    else (None, host) in
  let '(hostname, _, port) := partition host_and_port ":" in
  let user := match user with
              | Some u => if String.eqb u "" then username else PStr u
              | None => username
              end in
  port ← py_int (if String.eqb port "" then def_port else PStr port);
  Ok (user, hostname, port).

(** ** Environment layers *)

Abbreviation Env := (gmap string pyval).

(** [d.update(u)] *)
Definition dict_update (d u : Env) : Env := u ∪ d.

(** [HostConnection.get_env]: [dict(global_env)], then [update] with the
    user-local and the host-local layers. *)
Definition get_env (global_env user_local_env host_local_env : Env) : Env :=
  dict_update (dict_update global_env user_local_env) host_local_env.

(** A double quote character. *)
Definition DQ : string := String (ascii_of_nat 34) EmptyString.

(** The global [ENV] as fabric.py starts it; [fab_user] and
    [fab_timestamp] depend on the machine and are arguments. *)
Definition ENV0 (fab_user fab_timestamp : string) : Env :=
  list_to_map [
    ("fab_version", PStr "0.0.9");
    ("fab_author", PStr "Christian Vest Hansen");
    ("fab_mode", PStr "rolling");
    ("fab_port", PInt 22);
    ("fab_user", PStr fab_user);
    ("fab_password", PNone);
    ("fab_pkey", PNone);
    ("fab_key_filename", PNone);
    ("fab_new_host_key", PStr "accept");
    ("fab_shell", PStr ("/bin/bash -l -c " ++ DQ ++ "%s" ++ DQ));
    ("fab_timestamp", PStr fab_timestamp);
    ("fab_print_real_sudo", PBool false);
    ("fab_fail", PStr "abort")].

(** The mutable state a run shares: the global [ENV] and the user-local
    layers [user_envs] of [_connect], one per user, each shared (aliased) by
    every [HostConnection] of that user. *)
Record store := { st_global : Env; st_users : gmap string Env }.

(** A [HostConnection]: the key of its user-local layer in [st_users], its
    own host-local layer, its [SSHClient] (an opaque handle) and whether
    [self.client] is set. *)
Record hconn := {
  hc_user : string;
  hc_host_env : Env;
  hc_session : nat;
  hc_connected : bool }.

Definition user_env (st : store) (c : hconn) : Env :=
  default ∅ (st_users st !! hc_user c).

Definition conn_env (st : store) (c : hconn) : Env :=
  get_env (st_global st) (user_env st c) (hc_host_env c).

(** [HostConnection(hostname, port, ENV, user_envs[user])] *)
Definition mk_conn (hostname : string) (port : Z) (user : string) (session : nat) : hconn :=
  {| hc_user := user;
     hc_host_env := <["fab_host" := PStr hostname]> (<["fab_port" := PInt port]> ∅);
     hc_session := session;
     hc_connected := false |}.

Definition client_of (c : hconn) : option nat :=
  if hc_connected c then Some (hc_session c) else None.

Section Orchestrator.

Variable dict_repr : gmap string string -> string.

(** The Python stack left for [_lazy_format]'s recursion. *)
Variable depth : nat.

Definition lazy_fmt (env : Env) (msg : string) : res string :=
  r ← _lazy_format dict_repr depth env (Some msg); Ok (default "" r).

Definition env_get (env : Env) (k : string) : res pyval :=
  match env !! k with Some v => Ok v | None => Err KeyError end.

(** *** [HostConnection.connect] *)

(** The transport: [SSHClient.connect(host, port, username, password,
    pkey, key_filename)] raises [AuthenticationException], another
    [SSHException], or another error, or succeeds. *)
Variable ssh_connect : pyval -> pyval -> pyval -> pyval -> pyval -> pyval -> res unit.

Definition _do_connect (env : Env) : res unit :=
  host ← env_get env "fab_host";
  port ← env_get env "fab_port";
  username ← env_get env "fab_user";
  password ← env_get env "fab_password";
  pkey ← env_get env "fab_pkey";
  key_filename ← env_get env "fab_key_filename";
  ssh_connect host port username password pkey key_filename.

Definition PASS_PROMPT : string :=
  "Password for $(fab_user)@$(fab_host)$(fab_passprompt_suffix)".

(** The [while not connected] loop.  [inputs] is what the user types at
    the successive password prompts; [None], or no more input, is EOF
    (ctrl-D).  Returns the accepted password and the unread input. *)
Fixpoint password_loop (env : Env) (inputs : list (option string))
    : io (string * list (option string)) :=
  match lazy_fmt env PASS_PROMPT with
  | Err TypeError => ' _ ← io_emit (Print ""); io_err (SystemExit 0)
  | Err e => io_err e
  | Ok prompt =>
      match inputs with
      | [] | None :: _ =>
          ' _ ← io_emit (Prompt prompt); ' _ ← io_emit (Print ""); io_err (SystemExit 0)
      | Some password :: rest =>
          ' _ ← io_emit (Prompt prompt);
          let env := <["fab_password" := PStr password]> env in
          match _do_connect env with
          | Ok _ => mret (password, rest)
          | Err AuthenticationException =>
              ' _ ← io_emit (Print "Bad password.");
              password_loop (<["fab_passprompt_suffix" := PStr ": "]> env) rest
          | Err TypeError => ' _ ← io_emit (Print ""); io_err (SystemExit 0)
          | Err e => io_err e
          end
      end
  end.

Definition set_password (password : string) (e : Env) : Env :=
  <["fab_password" := PStr password]> e.

(** [connect] updates the connection and, through the shared user-local
    layer, the store. *)
Definition connect (st : store) (c : hconn) (inputs : list (option string))
    : io (store * hconn * list (option string)) :=
  let env := conn_env st c in
  ' _ ← io_lift (env_get env "fab_new_host_key");
  let connected := {| hc_user := hc_user c; hc_host_env := hc_host_env c;
                      hc_session := hc_session c; hc_connected := true |} in
  match _do_connect env with
  | Ok _ => io_ret (st, connected, inputs)
  | Err AuthenticationException | Err SSHException =>
      let suffix :=
        match env !! "fab_password" with
        | Some p => if truthy p then " [Enter for previous]: " else ": "
        | None => ": "
        end in
      '(password, rest) ← password_loop (<["fab_passprompt_suffix" := PStr suffix]> env) inputs;
      let c' := {| hc_user := hc_user c;
                   hc_host_env := set_password password (hc_host_env c);
                   hc_session := hc_session c; hc_connected := true |} in
      let st' := {| st_global := st_global st;
                    st_users := <[hc_user c := set_password password (user_env st c)]> (st_users st) |} in
      io_ret (st', c', rest)
  | Err e => io_err e
  end.

(** *** [_fail] *)

Definition codes (v : pyval) : res (nat * string) :=
  match v with
  | PStr "ignore" => Ok (1, "")
  | PStr "warn" => Ok (2, "Warning: ")
  | PStr "abort" => Ok (3, "Error: ")
  | PList _ => Err TypeError (* unhashable type *)
  | _ => Err KeyError
  end.

(** [code, msg_prefix = codes[env['fab_fail']]], then the [fail] keyword
    argument if given. *)
Definition fail_code (kwargs env : Env) : res (nat * string) :=
  '(code, msg_prefix) ← (f ← env_get env "fab_fail"; codes f);
  match kwargs !! "fail" with
  | Some f => codes f
  | None => Ok (code, msg_prefix)
  end.

Definition _fail (kwargs : Env) (msg : string) (env : Env) : io unit :=
  '(code, msg_prefix) ← io_lift (fail_code kwargs env);
  if Nat.ltb 1 code then
    m ← io_lift (lazy_fmt env msg);
    ' _ ← io_emit (Print (msg_prefix ++ m));
    if Nat.ltb 2 code then io_err (SystemExit 1) else io_ret tt
  else io_ret tt.

(** *** [_try_run_operation] and the strategies *)

(** The operation [fn(host, client, env, *args, **kwargs)]: it may keep
    state of its own ([op_state]: remote side effects, counters, ...);
    its positional [args] are left inside it. *)
Variable op_state : Type.
Variable fn_name : string.
Variable fn : op_state -> pyval -> option nat -> Env -> Env -> op_state * op_outcome.

Definition err_msg : string :=
  "The $(fab_current_operation) operation failed on $(fab_host)".

Definition _try_run_operation (s : op_state) (host : pyval) (client : option nat)
    (env kwargs : Env) : op_state * io unit :=
  let '(s', outcome) := fn s host client env kwargs in
  (s', ' _ ← io_emit (Invoke host client);
       match outcome with
       | Returned success =>
           if truthy success then mret tt else _fail kwargs (err_msg ++ ".") env
       | ThrewSystemExit code => io_err (SystemExit code)
       | Threw e =>
           ' _ ← _fail kwargs (err_msg ++ ":" ++ String LF EmptyString ++ _indent e) env;
           (* [success] is still [False] *)
           _fail kwargs (err_msg ++ ".") env
       end).

(** [env = host_conn.get_env(); env['fab_current_operation'] = fn.__name__] *)
Definition op_env (st : store) (c : hconn) : Env :=
  <["fab_current_operation" := PStr fn_name]> (conn_env st c).

(** [_rolling_strategy] over [CONNECTIONS]. *)
Fixpoint _rolling_strategy (s : op_state) (st : store) (conns : list hconn)
    (kwargs : Env) : op_state * io unit :=
  match conns with
  | [] => (s, mret tt)
  | c :: conns' =>
      let env := op_env st c in
      match env_get env "fab_host" with
      | Err e => (s, io_err e)
      | Ok host =>
          match _try_run_operation s host (client_of c) env kwargs with
          | (s1, (o1, Ok _)) =>
              let '(s2, (o2, r2)) := _rolling_strategy s1 st conns' kwargs in
              (s2, ((o1 ++ o2)%list, r2))
          | (s1, (o1, Err e)) => (s1, (o1, Err e))
          end
      end
  end.

(** The loop of [_fanout_strategy] before the threads start: each
    iteration rebinds [host], [client] and [env]. *)
Fixpoint fanout_bindings (st : store) (conns : list hconn)
    : res (list (pyval * option nat * Env)) :=
  match conns with
  | [] => Ok []
  | c :: conns' =>
      let env := op_env st c in
      host ← env_get env "fab_host";
      rest ← fanout_bindings st conns';
      Ok ((host, client_of c, env) :: rest)
  end.

(** A worker thread: an uncaught [SystemExit] ends the thread silently, any
    other uncaught error is reported by [threading] and ends the thread. *)
Definition thread_run (s : op_state) (host : pyval) (client : option nat)
    (env kwargs : Env) : op_state * list event :=
  let '(s', (o, r)) := _try_run_operation s host client env kwargs in
  (s', match r with
       | Ok _ | Err (SystemExit _) => o
       | Err e => (o ++ [ThreadTraceback e])%list
       end).

(** [n] threads whose [functor] reads the closure cells [host], [client],
    [env], run one after the other (one of the possible schedules). *)
Fixpoint run_threads (s : op_state) (n : nat) (host : pyval) (client : option nat)
    (env kwargs : Env) : op_state * list event :=
  match n with
  | 0 => (s, [])
  | S n' =>
      let '(s1, o1) := thread_run s host client env kwargs in
      let '(s2, o2) := run_threads s1 n' host client env kwargs in
      (s2, (o1 ++ o2)%list)
  end.

(** [_fanout_strategy]: the threads are started after the loop, so every
    [functor] sees the cells as the last iteration left them; the main
    thread then joins them all and returns. *)
Definition _fanout_strategy (s : op_state) (st : store) (conns : list hconn)
    (kwargs : Env) : op_state * io unit :=
  match fanout_bindings st conns with
  | Err e => (s, io_err e)
  | Ok bs =>
      match last bs with
      | None => (s, mret tt)
      | Some (host, client, env) =>
          let '(s', o) := run_threads s (length bs) host client env kwargs in
          (s', (o, Ok tt))
      end
  end.

End Orchestrator.

(** ** Auxiliary definitions for the statements *)

(** Whether [_LAZY_FORMAT_SUBSTITUTER] matches anywhere in [t]. *)
Fixpoint has_token (t : string) : bool :=
  match t with
  | EmptyString => false
  | String c t' => match match_token t with Some _ => true | None => has_token t' end
  end.

(** Whether [t] contains a [$(name)] token whose name is bound in [env]. *)
Fixpoint has_bound_token (env : gmap string string) (t : string) : bool :=
  match t with
  | EmptyString => false
  | String c t' =>
      match match_token t with
      | Some (var, _) => bool_decide (is_Some (env !! var)) || has_bound_token env t'
      | None => has_bound_token env t'
      end
  end.

(** Whether every character of [s] is a word character ([\w]). *)
Fixpoint all_word (s : string) : bool :=
  match s with
  | EmptyString => true
  | String c s' => is_word c && all_word s'
  end.

(** One possible text for [str(dict)], for evaluating inputs that never
    format the dict itself. *)
Definition some_dict_repr (_ : gmap string string) : string := "{...}".

(** The hosts an event trace invoked the operation on, in order. *)
Fixpoint invocations (ev : list event) : list pyval :=
  match ev with
  | [] => []
  | Invoke h _ :: ev' => h :: invocations ev'
  | _ :: ev' => invocations ev'
  end.

(** The characters that may follow [%] in a conversion specifier. *)
Definition spec_chars : string := "-+ #0123456789.*hlL%srciduoxXeEfFgG(".

(** The failure policies, read as the spec names them: [ignore], [warn],
    [abort]. *)
Inductive policy := Ignore | Warn | Abort.

Definition policy_of_val (v : pyval) : option policy :=
  match v with
  | PStr s =>
      if String.eqb s "ignore" then Some Ignore
      else if String.eqb s "warn" then Some Warn
      else if String.eqb s "abort" then Some Abort
      else None
  | _ => None
  end.

(** The per-call override when there is one, else the environment's. *)
Definition resolve_policy (override : option pyval) (env_policy : policy) : policy :=
  match override ≫= policy_of_val with
  | Some p => p
  | None => env_policy
  end.

(** Applying a policy to a message: nothing; print it; print it and exit
    with status 1.  The message is lazily formatted, which may raise. *)
Definition apply_policy (dict_repr : gmap string string -> string) (depth : nat)
    (p : policy) (env : Env) (msg : string) : io unit :=
  match p with
  | Ignore => ([], Ok tt)
  | Warn =>
      match lazy_fmt dict_repr depth env msg with
      | Ok m => ([Print ("Warning: " ++ m)], Ok tt)
      | Err e => ([], Err e)
      end
  | Abort =>
      match lazy_fmt dict_repr depth env msg with
      | Ok m => ([Print ("Error: " ++ m)], Err (SystemExit 1))
      | Err e => ([], Err e)
      end
  end.

(** An operation that raises an exception with text [text] on every host. *)
Definition op_raise (text : string) (s : unit) (_ : pyval) (_ : option nat) (_ _ : Env)
    : unit * op_outcome := (s, Threw text).

(** The global [ENV] of a run by [alice], with connections to [A] and
    [B] under her user-local layer. *)
Definition run_store : store :=
  {| st_global := ENV0 "alice" "ts";
     st_users := {["alice" := {["fab_user" := PStr "alice"]}]} |}.

Definition run_conns : list hconn := [mk_conn "A" 22 "alice" 0; mk_conn "B" 22 "alice" 1].

(** An operation that returns [False] on every host. *)
Definition op_false (s : unit) (_ : pyval) (_ : option nat) (_ _ : Env)
    : unit * op_outcome := (s, Returned (PBool false)).

(** An operation that fails (returns [False]) on the host named [bad]
    and succeeds elsewhere. *)
Definition op_fails_on (bad : string) (s : unit) (host : pyval) (_ : option nat) (_ _ : Env)
    : unit * op_outcome :=
  (s, Returned (PBool (match host with PStr h => negb (String.eqb h bad) | _ => true end))).

(** The [fab_host] of each connection, in order (connections without one
    skipped). *)
Definition conn_hosts (fn_name : string) (st : store) (conns : list hconn) : list pyval :=
  omap (fun c => op_env fn_name st c !! "fab_host") conns.

(** Whether an outcome is a failure that [_try_run_operation] hands to
    [_fail]: a falsy result or a raised exception other than [SystemExit]. *)
Definition failing (out : op_outcome) : bool :=
  match out with
  | Returned v => negb (truthy v)
  | Threw _ => true
  | ThrewSystemExit _ => false
  end.

(** A transport that accepts the password [secret] and rejects any other
    with [AuthenticationException]. *)
Definition ssh_accepts (secret : string) (host port username password pkey key_filename : pyval)
    : res unit :=
  match password with
  | PStr p => if String.eqb p secret then Ok tt else Err AuthenticationException
  | _ => Err AuthenticationException
  end.

(** ** The command lines of [run] and [sudo] *)

(** [s.replace(old, new)] for a one-character [old]. *)
Definition replace_char (old : ascii) (new s : string) : string :=
  concat_map (fun c => if Ascii.eqb c old then new else String c EmptyString) s.

(** [_escape_bash_specialchars(cmd)]: [cmd.replace("$", "\\$")]. *)
Definition _escape_bash_specialchars (cmd : string) : string :=
  replace_char "$" "\$" cmd.

(** Reading [\$] back as [$]. *)
Fixpoint unescape_dollar (s : string) : string :=
  match s with
  | EmptyString => EmptyString
  | String c s' =>
      if Ascii.eqb c "\" then
        match s' with
        | String d s'' =>
            if Ascii.eqb d "$" then String "$" (unescape_dollar s'')
            else String c (unescape_dollar s')
        | EmptyString => s
        end
      else String c (unescape_dollar s')
  end.

(** [cmd.replace('"', '\\"')] *)
Definition escape_quotes (cmd : string) : string :=
  replace_char (ascii_of_nat 34) ("\" ++ DQ) cmd.

(** The main loop of PyString_Format when the right operand is a single
    [str] (neither a tuple nor a mapping: [arglen = -1], [dict = NULL]).
    A [%(key)] raises [TypeError] (format requires a mapping); the rest is
    [format_spec], whose [str(dict)] is never reached.  Returns the
    argument state for the final check. *)
Fixpoint fmt_loop1 (fuel : nat) (a : argst) (s : string) : res (string * argst) :=
  match fuel with
  | 0 => Ok (s, a)
  | S f =>
      match s with
      | EmptyString => Ok ("", a)
      | String c s' =>
          if Ascii.eqb c "%" then
            match s' with
            | String "(" _ => Err TypeError
            | _ =>
                '(out, a', rest) ← format_spec (fun _ => "") ∅ a s';
                '(r, a'') ← fmt_loop1 f a' rest; Ok (out ++ r, a'')
            end
          else '(r, a') ← fmt_loop1 f a s'; Ok (String c r, a')
      end
  end.

(** [fmt % arg] for a [str] [arg]: an argument left unused raises
    [TypeError] (not all arguments converted during string formatting). *)
Definition py_format1 (fmt arg : string) : res string :=
  '(out, a) ← fmt_loop1 (String.length fmt) {| a_src := ArgVal arg; a_used := false |} fmt;
  if a_used a then Ok out else Err TypeError.

(** [v % arg] for a value [v] of [ENV]: only a [str] has [%] with a [str]
    operand. *)
Definition pct_str (v : pyval) (arg : string) : res string :=
  match v with
  | PStr fmt => py_format1 fmt arg
  | _ => Err TypeError (* unsupported operand type(s) for % *)
  end.

Section Commands.

Variable dict_repr : gmap string string -> string.
Variable depth : nat.

(** [run]: the command it prints and the one it executes,
    [cmd = _lazy_format(cmd, env)],
    [real_cmd = env['fab_shell'] % cmd.replace('"', '\\"')],
    [real_cmd = _escape_bash_specialchars(real_cmd)]. *)
Definition run_command (env : Env) (cmd : string) : res (string * string) :=
  cmd ← lazy_fmt dict_repr depth env cmd;
  shell ← env_get env "fab_shell";
  real_cmd ← pct_str shell (escape_quotes cmd);
  Ok (cmd, _escape_bash_specialchars real_cmd).

(** [sudo]: the command it prints, the one it executes, and whether it
    writes [fab_password] to the channel's stdin ([if passwd:]).
    [passwd and "sudo -S " or "sudo "] picks on the truth of [passwd]
    alone, since ["sudo -S "] is true. *)
Definition sudo_command (env : Env) (cmd : string) : res (string * string * bool) :=
  cmd ← lazy_fmt dict_repr depth env cmd;
  passwd ← env_get env "fab_password";
  let sudo_cmd := if truthy passwd then "sudo -S " else "sudo " in
  shell ← env_get env "fab_shell";
  real_cmd ← pct_str shell (sudo_cmd ++ escape_quotes cmd);
  print_real ← env_get env "fab_print_real_sudo";
  (* [env['fab_print_real_sudo'] and real_cmd or cmd] *)
  let cmd := if truthy print_real && negb (String.eqb real_cmd "") then real_cmd else cmd in
  Ok (cmd, _escape_bash_specialchars real_cmd, truthy passwd).

(** [_confirm_proceed(exec_type, host, kwargs)], where [answer] is what
    [raw_input] returns and [global_env] is [ENV] (the default [env] of
    [_lazy_format]).  [answer and answer in 'yY'] is false for an empty
    answer, and [in] on strings is a substring test. *)
Fixpoint is_substring (a b : string) : bool :=
  String.prefix a b || match b with EmptyString => false | String _ b' => is_substring a b' end.

Definition lazy_fmt_value (env : Env) (v : pyval) : res string :=
  match v with
  | PNone => Ok "None"                        (* _lazy_format(None) is None *)
  | PStr s => lazy_fmt dict_repr depth env s
  | _ => Err TypeError                         (* v % env *)
  end.

Definition _confirm_proceed (global_env : Env) (exec_type : string) (host : pyval)
    (kwargs : Env) (answer : string) : io bool :=
  match kwargs !! "confirm" with
  | None => io_ret true
  | Some confirm =>
      text ← io_lift (lazy_fmt_value global_env confirm);
      ' _ ← io_emit (Prompt ("Confirm " ++ exec_type ++ " for host " ++ py_str host ++ ": "
                             ++ text ++ " [yN] "));
      io_ret (negb (String.eqb answer "") && is_substring answer "yY")
  end.

End Commands.

(** ** Help texts *)

(** [str.strip()] *)
Fixpoint rstrip (s : string) : string :=
  match s with
  | EmptyString => EmptyString
  | String c s' =>
      let r := rstrip s' in
      if String.eqb r "" && is_space c then "" else String c r
  end.

Definition strip (s : string) : string := rstrip (lstrip s).

Fixpoint drop_blank_lines (ls : list string) : list string :=
  match ls with
  | l :: ls' => if String.eqb (strip l) "" then drop_blank_lines ls' else ls
  | [] => []
  end.

Definition default_help_msg : string := "* No help-text found.".

(** [_print_help_for(name, doc)]; [doc] is a [__doc__], [None] or a [str]. *)
Definition _print_help_for (name : string) (doc : option string) : list event :=
  let msg := match doc with
             | Some d => if String.eqb d "" then default_help_msg else d
             | None => default_help_msg
             end in
  let lines := rev (drop_blank_lines (rev (drop_blank_lines (splitlines msg)))) in
  match lines with
  | [] => [Print ("No help message found for '" ++ name ++ "'.")]
  | _ =>
      let msg := join (String LF EmptyString) lines in
      let msg := if String.prefix "    " msg then msg else _indent msg in
      [Print ("Help for '" ++ name ++ "':" ++ String LF EmptyString ++ msg)]
  end.

(** [_print_help_for_in(name, dictionary)]: the dictionary maps a name to
    its function's [__doc__]. *)
Definition _print_help_for_in (name : string) (dictionary : gmap string (option string))
    : list event :=
  match dictionary !! name with
  | Some doc => _print_help_for name doc
  | None => _print_help_for name None
  end.

(** ** [_load_default_settings] *)

(** One line of [~/.fabric] as the file iterator yields it (with its
    line break): [k, _, v = partition(s, '=')], then
    [(k.strip(), v.strip())]. *)
Definition setting_of_line (s : string) : string * pyval :=
  let '(k, _, v) := partition s "=" in (strip k, PStr (strip v)).

(** [comments = lambda s: s and not s.startswith("#")] *)
Definition setting_line (s : string) : bool :=
  negb (String.eqb s "") && negb (String.prefix "#" s).

(** [cfg] is [None] when [~/.fabric] does not exist, else the lines read
    from it; [ENV.update(settings)] inserts the pairs in order. *)
Definition _load_default_settings (cfg : option (list string)) (env : Env) : Env :=
  match cfg with
  | None => env
  | Some lines =>
      fold_left (fun e kv => <[fst kv := snd kv]> e)
                (map setting_of_line (List.filter setting_line lines)) env
  end.

(** ** [_parse_args] *)

(** [s.split(sep)] *)
Fixpoint split_on (sep : ascii) (s : string) : list string :=
  match s with
  | EmptyString => [""]
  | String c s' =>
      if Ascii.eqb c sep then "" :: split_on sep s'
      else match split_on sep s' with
           | l :: ls => String c l :: ls
           | [] => [String c EmptyString]
           end
  end.

Section ParseArgs.

(** [v % ENV] with the raw [ENV] (whose values are not all strings). *)
Variable env_pct : string -> res string.

(** [for cmd_arg_kv in cmd_str_args.split(','): k, _, v = partition(...);
    cmd_args[k] = (v % ENV) or k] *)
Fixpoint parse_kvs (cmd_args : gmap string string) (kvs : list string)
    : res (gmap string string) :=
  match kvs with
  | [] => Ok cmd_args
  | kv :: kvs' =>
      let '(k, _, v) := partition kv "=" in
      r ← env_pct v;
      parse_kvs (<[k := if String.eqb r "" then k else r]> cmd_args) kvs'
  end.

Definition parse_cmd (cmd : string) : res (string * gmap string string) :=
  if str_has ":" cmd then
    (* [cmd.split(':', 1)] *)
    let '(name, _, cmd_str_args) := partition cmd ":" in
    cmd_args ← parse_kvs ∅ (split_on "," cmd_str_args);
    Ok (name, cmd_args)
  else Ok (cmd, ∅).

Fixpoint _parse_args (args : list string) : res (list (string * gmap string string)) :=
  match args with
  | [] => Ok []
  | cmd :: args' =>
      c ← parse_cmd cmd;
      cs ← _parse_args args';
      Ok (c :: cs)
  end.

End ParseArgs.

(** ** [_check_fab_hosts], [local_per_host], [getAny] *)

(** [len(v)] *)
Definition py_len (v : pyval) : res nat :=
  match v with
  | PStr s => Ok (String.length s)
  | PList l => Ok (length l)
  | _ => Err TypeError
  end.

(** [for x in v] *)
Definition py_iter (v : pyval) : res (list pyval) :=
  match v with
  | PStr s => Ok (map (fun c => PStr (String c EmptyString)) (list_ascii_of_string s))
  | PList l => Ok l
  | _ => Err TypeError
  end.

Definition _check_fab_hosts (env : Env) : io unit :=
  match env !! "fab_hosts" with
  | None =>
      ' _ ← io_emit (Print "Fabric requires a fab_hosts variable.");
      ' _ ← io_emit (Print "Please set it in your fabfile.");
      ' _ ← io_emit (Print "Example: set(fab_hosts=['node1.com', 'node2.com'])");
      io_err (SystemExit 1)
  | Some hosts =>
      n ← io_lift (py_len hosts);
      if Nat.eqb n 0 then
        ' _ ← io_emit (Print "The fab_hosts list was empty.");
        ' _ ← io_emit (Print "Please specify some hosts to connect to.");
        io_err (SystemExit 1)
      else io_ret tt
  end.

Section LocalPerHost.

Variable dict_repr : gmap string string -> string.
Variable depth : nat.
(** The exit status of [subprocess.call(final_cmd, shell=True)]. *)
Variable subprocess_call : string -> Z.

(** [for env in con_envs: ...], with [_fail] reading the global [ENV]. *)
Fixpoint local_loop (global_env kwargs : Env) (cmd : string) (envs : list Env) : io unit :=
  match envs with
  | [] => io_ret tt
  | env :: envs' =>
      final_cmd ← io_lift (lazy_fmt dict_repr depth env cmd);
      line ← io_lift (lazy_fmt dict_repr depth env ("[localhost/$(fab_host)] run: " ++ final_cmd));
      ' _ ← io_emit (Print line);
      ' _ ← (if Z.eqb (subprocess_call final_cmd) 0 then io_ret tt
             else _fail dict_repr depth kwargs
                    ("Local command failed:" ++ String LF EmptyString ++ _indent final_cmd)
                    global_env);
      local_loop global_env kwargs cmd envs'
  end.

(** [con_envs]: the connections' environments, or, before any connection,
    a copy of [ENV] per [fab_hosts] entry with [fab_host] set to it. *)
Definition per_host_envs (st : store) (conns : list hconn) : res (list Env) :=
  match map (conn_env st) conns with
  | [] =>
      hosts ← env_get (st_global st) "fab_hosts";
      hs ← py_iter hosts;
      Ok (map (fun h => <["fab_host" := h]> (st_global st)) hs)
  | es => Ok es
  end.

Definition local_per_host (st : store) (conns : list hconn) (cmd : string) (kwargs : Env)
    : io unit :=
  ' _ ← _check_fab_hosts (st_global st);
  envs ← io_lift (per_host_envs st conns);
  local_loop (st_global st) kwargs cmd envs.

End LocalPerHost.

(** [getAny( *names)]: [None] is the implicit return value. *)
Fixpoint getAny (env : Env) (names : list string) : pyval :=
  match names with
  | [] => PNone
  | name :: names' =>
      match env !! name with
      | Some value => if truthy value then value else getAny env names'
      | None => getAny env names'
      end
  end.

(** ** [set] *)

Section SetOperation.

(** [v % ENV] for a [str] [v], with [ENV] as it is at that point. *)
Variable pct : Env -> string -> res string.

(** [for k, v in variables.items()], in the order [items()] yields them;
    an exception leaves the variables already set in [ENV]. *)
Fixpoint set_vars (env : Env) (variables : list (string * pyval)) : Env * res unit :=
  match variables with
  | [] => (env, Ok tt)
  | (k, v) :: variables' =>
      match v with
      | PStr s =>
          match pct env s with
          | Ok r => set_vars (<[k := PStr r]> env) variables'
          | Err e => (env, Err e)
          end
      | _ => set_vars (<[k := v]> env) variables'
      end
  end.

End SetOperation.

(** ** [call_once] *)

(** A command: its identity (what [_CALLED_COMMANDS] compares) and its
    [__name__]. *)
Record command := { cmd_id : positive; cmd_name : string }.

(** One [call_once(command)]: the new [_CALLED_COMMANDS], what it prints,
    and whether it calls [command] (whose own effects are not part of this
    model). *)
Definition call_once (called : gset positive) (c : command)
    : gset positive * list event * bool :=
  if decide (cmd_id c ∈ called) then
    (called, [Print ("Already invoked " ++ cmd_name c ++ ", skipping.")], false)
  else
    ({[cmd_id c]} ∪ called, [Print ("Invoking " ++ cmd_name c ++ "...")], true).

(** A sequence of [call_once] calls: the final set, the output, and the
    commands called, in order. *)
Fixpoint call_once_seq (called : gset positive) (cs : list command)
    : gset positive * list event * list positive :=
  match cs with
  | [] => (called, [], [])
  | c :: cs' =>
      let '(called1, o1, ran) := call_once called c in
      let '(called2, o2, rs) := call_once_seq called1 cs' in
      (called2, (o1 ++ o2)%list, if ran then cmd_id c :: rs else rs)
  end.

(** ** [_on_hosts_do] *)

(** [STRATEGIES] in the order of [STRATEGIES.keys()], each name with the
    run of its strategy on [fn, *args, **kwargs]. *)
Definition _on_hosts_do (strategies : list (string * io unit)) (env : Env) : io unit :=
  strategy ← io_lift (env_get env "fab_mode");
  let unsupported :=
    ' _ ← io_emit (Print ("Unsupported fab_mode: " ++ py_str strategy));
    ' _ ← io_emit (Print ("Supported modes are: " ++ join ", " (map fst strategies)));
    io_err (SystemExit 1) in
  match strategy with
  | PStr s =>
      match find (fun p => String.eqb (fst p) s) strategies with
      | Some (_, strategy_fn) => strategy_fn
      | None => unsupported
      end
  | PList _ => io_err TypeError (* unhashable type *)
  | _ => unsupported
  end.

(** The two strategies fabric.py registers, on an operation [fn]. *)
Definition fabric_strategies (dict_repr : gmap string string -> string) (depth : nat)
    {S} (fn_name : string) (fn : S -> pyval -> option nat -> Env -> Env -> S * op_outcome)
    (s : S) (st : store) (conns : list hconn) (kwargs : Env) (order : bool)
    : list (string * io unit) :=
  let rolling := ("rolling", snd (_rolling_strategy dict_repr depth S fn_name fn s st conns kwargs)) in
  let fanout := ("fanout", snd (_fanout_strategy dict_repr depth S fn_name fn s st conns kwargs)) in
  if order then [rolling; fanout] else [fanout; rolling].

(** A line without line breaks. *)
Definition no_break (l : string) : Prop := str_has LF l = false /\ str_has CR l = false.

(** A line as a file iterator yields it: its text and the line break. *)
Definition text_line (s : string) : string := s ++ String LF EmptyString.

(** A variable for [set] whose value, if a string, has no [%]. *)
Definition plain_value (kv : string * pyval) : Prop :=
  match snd kv with PStr s => str_has "%" s = false | _ => True end.

(** *** The two passes of [_lazy_format] over a whole template *)

(** [replacer_fn] of [_lazy_format], with [d] the depth left. *)
Definition replacer (dict_repr : gmap string string -> string) (d : nat)
    (env : gmap string string) (var : string) : res string :=
  match env !! var with
  | Some v => v' ← py_format dict_repr env v; lazy_format dict_repr d env v'
  | None => Ok ("$(" ++ var ++ ")")
  end.

(** A text cut at its [$(name)] tokens: each segment is a piece of text
    followed by a token, and [q] is the text after the last token. *)
Fixpoint seg_join (segs : list (string * string)) (q : string) : string :=
  match segs with
  | [] => q
  | (p, name) :: segs' => p ++ "$(" ++ name ++ ")" ++ seg_join segs' q
  end.

(** A segment whose text holds no token and whose name is a run of word
    characters. *)
Definition seg_ok (seg : string * string) : Prop :=
  has_token seg.1 = false /\ seg.2 <> "" /\ all_word seg.2 = true.

(** The tokens replaced left to right, each replacement put as it is
    between the texts around it; the first error is raised. *)
Fixpoint subst_pass (repl : string -> res string) (segs : list (string * string))
    (q : string) : res string :=
  match segs with
  | [] => Ok q
  | (p, name) :: segs' =>
      r ← repl name; rest ← subst_pass repl segs' q; Ok (p ++ r ++ rest)
  end.

(** A template whose eager references are [%(name)s]: pieces of text,
    each followed by a reference, then a tail [q]. *)
Fixpoint keyed_join (pieces : list (string * string)) (q : string) : string :=
  match pieces with
  | [] => q
  | (p, name) :: pieces' => p ++ "%(" ++ name ++ ")s" ++ keyed_join pieces' q
  end.

(** A piece without [%] whose name holds no parenthesis. *)
Definition key_ok (piece : string * string) : Prop :=
  str_has "%" piece.1 = false /\ str_has "(" piece.2 = false /\ str_has ")" piece.2 = false.

(** The keyed template with each reference replaced by its value; [None]
    when a name is unbound. *)
Fixpoint interpolate (env : gmap string string) (pieces : list (string * string))
    (q : string) : option string :=
  match pieces with
  | [] => Some q
  | (p, name) :: pieces' =>
      v ← env !! name; rest ← interpolate env pieces' q; Some (p ++ v ++ rest)
  end.

(** ** Lemmas on formatting *)

Section FormatLemmas.

Variable dict_repr : gmap string string -> string.

Lemma fmt_loop_no_pct (env : gmap string string) (s : string) :
  forall n a, String.length s <= n -> str_has "%" s = false ->
  fmt_loop dict_repr n env a s = Ok s.
Proof.
  induction s as [|c s IH]; intros n a Hl H.
  - destruct n; reflexivity.
  - cbn [String.length] in Hl. cbn [str_has] in H.
    apply orb_false_iff in H as [Hc Hs].
    destruct n as [|n]; [lia|]. cbn [fmt_loop].
    rewrite Ascii.eqb_sym, Hc. rewrite (IH n a) by (auto; lia). reflexivity.
Qed.

Lemma py_format_no_pct (env : gmap string string) (s : string) :
  str_has "%" s = false -> py_format dict_repr env s = Ok s.
Proof. intros H. apply fmt_loop_no_pct; auto. Qed.

Lemma re_sub_no_token (repl : string -> res string) (s : string) :
  forall n, String.length s <= n -> has_token s = false -> re_sub repl n s = Ok s.
Proof.
  induction s as [|c s IH]; intros n Hl H.
  - destruct n; reflexivity.
  - simpl in Hl. destruct n as [|n]; [lia|].
    cbn [has_token] in H. cbn [re_sub].
    destruct (match_token (String c s)); [discriminate|].
    rewrite (IH n) by (auto; lia). reflexivity.
Qed.

Lemma lazy_format_plain (d : nat) (env : gmap string string) (s : string) :
  str_has "%" s = false -> has_token s = false ->
  lazy_format dict_repr (S d) env s = Ok s.
Proof.
  intros Hp Ht. simpl. rewrite py_format_no_pct by exact Hp.
  simpl. apply re_sub_no_token; auto.
Qed.

Lemma string_app_nil_r (s : string) : String.append s "" = s.
Proof. induction s as [|c s IH]; [reflexivity|]. cbn [String.append]. rewrite IH. reflexivity. Qed.

Lemma str_has_app (c : ascii) (s t : string) :
  str_has c (s ++ t) = str_has c s || str_has c t.
Proof.
  induction s as [|d s IH]; [reflexivity|]. cbn [String.append str_has].
  rewrite IH. apply orb_assoc.
Qed.

Lemma string_length_app (s t : string) :
  String.length (s ++ t) = String.length s + String.length t.
Proof.
  induction s as [|d s IH]; [reflexivity|]. cbn [String.append String.length].
  rewrite IH. reflexivity.
Qed.

Lemma all_word_no_pct (s : string) : all_word s = true -> str_has "%" s = false.
Proof.
  induction s as [|c s IH]; [reflexivity|]. cbn [str_has all_word]. intros H.
  apply andb_true_iff in H as [Hc Hs].
  destruct (Ascii.eqb "%" c) eqn:E.
  - apply Ascii.eqb_eq in E. subst c. discriminate.
  - apply IH, Hs.
Qed.

Lemma word_prefix_all (w r : string) (c : ascii) :
  all_word w = true -> is_word c = false ->
  word_prefix (w ++ String c r) = (w, String c r).
Proof.
  induction w as [|d w IH]; intros Hw Hc; cbn [String.append word_prefix].
  - rewrite Hc. reflexivity.
  - cbn [all_word] in Hw. apply andb_true_iff in Hw as [Hd Hw].
    rewrite Hd, IH by assumption. reflexivity.
Qed.

Lemma match_token_name (name r : string) :
  name <> "" -> all_word name = true ->
  match_token ("$(" ++ name ++ ")" ++ r) = Some (name, r).
Proof.
  intros Hn Hw. cbn [String.append]. unfold match_token.
  rewrite word_prefix_all by (auto; reflexivity).
  destruct name; [congruence|]. reflexivity.
Qed.

Lemma re_sub_empty (repl : string -> res string) (n : nat) : re_sub repl n "" = Ok "".
Proof. destruct n; reflexivity. Qed.

(** A lone [$(name)] token: the replacer's result. *)
Lemma lazy_format_token (d : nat) (env : gmap string string) (name : string) :
  name <> "" -> all_word name = true ->
  lazy_format dict_repr (S d) env ("$(" ++ name ++ ")") =
    match env !! name with
    | Some v => v' ← py_format dict_repr env v; lazy_format dict_repr d env v'
    | None => Ok ("$(" ++ name ++ ")")
    end.
Proof.
  intros Hn Hw. cbn [lazy_format].
  rewrite py_format_no_pct.
  2:{ cbn [String.append str_has]. rewrite str_has_app, all_word_no_pct by exact Hw.
      reflexivity. }
  cbn [mbind res_bind].
  remember ("$(" ++ name ++ ")") as t eqn:Et.
  assert (Hm : match_token t = Some (name, "")).
  { subst t. exact (match_token_name name "" Hn Hw). }
  assert (Hl : exists n, String.length t = S n) by (subst t; simpl; eauto).
  destruct Hl as [n Hl]. rewrite Hl.
  assert (Ht : exists t', t = String "$" t') by (subst t; simpl; eauto).
  destruct Ht as [t' Ht]. cbn [re_sub]. rewrite Ht in *. rewrite Hm.
  rewrite re_sub_empty.
  destruct (env !! name) as [v|]; cbn [mbind res_bind].
  - destruct (py_format dict_repr env v) as [v'|e]; cbn [mbind res_bind]; [|reflexivity].
    destruct (lazy_format dict_repr d env v') as [r|e]; cbn [mbind res_bind]; [|reflexivity].
    rewrite string_app_nil_r. reflexivity.
  - rewrite string_app_nil_r, Et. reflexivity.
Qed.

Lemma scan_key_plain (name r : string) :
  str_has "(" name = false -> str_has ")" name = false ->
  scan_key 1 (name ++ String ")" r) = Some (name, r).
Proof.
  induction name as [|d name IH]; intros Ho Hc; [reflexivity|].
  cbn [str_has] in Ho, Hc.
  apply orb_false_iff in Ho as [Ho1 Ho2]. apply orb_false_iff in Hc as [Hc1 Hc2].
  cbn [String.append scan_key].
  rewrite Ascii.eqb_sym, Hc1, Ascii.eqb_sym, Ho1, IH by assumption.
  reflexivity.
Qed.

Lemma fmt_loop_app_plain (env : gmap string string) (p t : string) :
  forall n a, str_has "%" p = false ->
  fmt_loop dict_repr (String.length p + n) env a (p ++ t) =
    (r ← fmt_loop dict_repr n env a t; Ok (p ++ r)).
Proof.
  induction p as [|c p IH]; intros n a Hp; cbn [String.length String.append plus].
  - destruct (fmt_loop dict_repr n env a t); reflexivity.
  - cbn [str_has] in Hp. apply orb_false_iff in Hp as [Hc Hp].
    cbn [fmt_loop]. rewrite Ascii.eqb_sym, Hc, IH by exact Hp.
    destruct (fmt_loop dict_repr n env a t); reflexivity.
Qed.

(** [%(name)s] is replaced by the bound value. *)
Lemma py_format_key (env : gmap string string) (name v : string) :
  str_has "(" name = false -> str_has ")" name = false -> env !! name = Some v ->
  py_format dict_repr env ("%(" ++ name ++ ")s") = Ok v.
Proof.
  intros Ho Hc Hv. unfold py_format.
  cbn [String.append String.length fmt_loop].
  cbv [Ascii.eqb Bool.eqb]. unfold format_spec. cbn [String.append].
  rewrite scan_key_plain by assumption. cbn [mbind option_bind]. rewrite Hv.
  simpl. rewrite string_app_nil_r.
  destruct (String.length (name ++ ")s")); reflexivity.
Qed.

(** A format running out just after a [%]. *)
Lemma py_format_trailing_pct (env : gmap string string) (p : string) :
  str_has "%" p = false -> py_format dict_repr env (p ++ "%") = Err ValueError.
Proof.
  intros Hp. unfold py_format. rewrite string_length_app.
  rewrite fmt_loop_app_plain by exact Hp. reflexivity.
Qed.

Lemma format_spec_unsupported (env : gmap string string) (c : ascii) (r : string) :
  str_has c spec_chars = false ->
  format_spec dict_repr env {| a_src := ArgDict; a_used := false |} (String c r) = Err ValueError.
Proof.
  intros H. destruct c as [[] [] [] [] [] [] [] []]; vm_compute in H;
    first [discriminate | vm_compute; reflexivity].
Qed.

(** A [%] followed by a character that starts no conversion specifier. *)
Lemma py_format_unsupported (env : gmap string string) (p : string) (c : ascii) (r : string) :
  str_has "%" p = false -> str_has c spec_chars = false ->
  py_format dict_repr env (p ++ String "%" (String c r)) = Err ValueError.
Proof.
  intros Hp Hc. unfold py_format. rewrite string_length_app.
  rewrite fmt_loop_app_plain by exact Hp. cbn [String.length fmt_loop].
  cbv [Ascii.eqb Bool.eqb]. rewrite format_spec_unsupported by exact Hc.
  reflexivity.
Qed.

(** [_lazy_format] of a lone [$(name)] token with [name] bound: the value
    is %-formatted, then lazily formatted one level deeper. *)
Lemma lazy_format_token_bound (d : nat) (env : Env) (name : string) (v : pyval) :
  name <> "" -> all_word name = true -> env !! name = Some v ->
  _lazy_format dict_repr (S d) env (Some ("$(" ++ name ++ ")")) =
    (r ← (v' ← py_format dict_repr (py_str <$> env) (py_str v);
          lazy_format dict_repr d (py_str <$> env) v');
     Ok (Some r)).
Proof.
  intros Hn Hw Hv. unfold _lazy_format. rewrite lazy_format_token by assumption.
  rewrite lookup_fmap, Hv. reflexivity.
Qed.

End FormatLemmas.

(** ** Lemmas on the passes of [_lazy_format] *)

Lemma string_app_assoc (s t u : string) : (s ++ t ++ u = (s ++ t) ++ u)%string.
Proof. induction s as [|c s IH]; [reflexivity|]. cbn [String.append]. rewrite IH. reflexivity. Qed.

Lemma re_sub_token_step (repl : string -> res string) (n : nat) (t var rest : string) :
  match_token t = Some (var, rest) -> t <> "" ->
  re_sub repl (S n) t = (r ← repl var; r' ← re_sub repl n rest; Ok (r ++ r')).
Proof. intros H Ht. destruct t as [|c t']; [congruence|]. cbn [re_sub]. rewrite H. reflexivity. Qed.

Lemma lazy_format_S_replacer (dict_repr : gmap string string -> string) (d : nat)
    (env : gmap string string) (s : string) :
  lazy_format dict_repr (S d) env s =
    (s' ← py_format dict_repr env s; re_sub (replacer dict_repr d env) (String.length s') s').
Proof. reflexivity. Qed.

Lemma word_prefix_app (s t : string) :
  word_prefix (s ++ t) =
    match word_prefix s with
    | (w, EmptyString) => let '(w', r') := word_prefix t in (w ++ w', r')
    | (w, r) => (w, r ++ t)
    end.
Proof.
  induction s as [|c s IH]; cbn [String.append word_prefix].
  - destruct (word_prefix t); reflexivity.
  - destruct (is_word c); [|reflexivity].
    rewrite IH. destruct (word_prefix s) as [w [|e r]]; [destruct (word_prefix t)|]; reflexivity.
Qed.

Lemma word_prefix_spec (s : string) :
  s = ((word_prefix s).1 ++ (word_prefix s).2)%string /\ all_word (word_prefix s).1 = true.
Proof.
  induction s as [|c s IH]; [split; reflexivity|]. cbn [word_prefix].
  destruct (is_word c) eqn:Ec; [|split; reflexivity].
  destruct (word_prefix s) as [w r]. cbn in IH |- *. destruct IH as [-> Hw].
  rewrite Ec, Hw. split; reflexivity.
Qed.

(** [match_token] with the characters compared by [Ascii.eqb]. *)
Lemma match_token_eq (s : string) :
  match_token s =
    match s with
    | String c (String d s') =>
        if Ascii.eqb c "$" && Ascii.eqb d "(" then
          match word_prefix s' with
          | (String x w, String e r') =>
              if Ascii.eqb e ")" then Some (String x w, r') else None
          | _ => None
          end
        else None
    | _ => None
    end.
Proof.
  destruct s as [|c [|d s]]; [reflexivity| |].
  - destruct c as [[] [] [] [] [] [] [] []]; reflexivity.
  - destruct c as [[] [] [] [] [] [] [] []]; try reflexivity.
    destruct d as [[] [] [] [] [] [] [] []]; try reflexivity.
    unfold match_token. destruct (word_prefix s) as [[|x w] [|e r]]; try reflexivity.
    destruct e as [[] [] [] [] [] [] [] []]; reflexivity.
Qed.

(** A text with no match keeps none when a text starting with [$] is
    appended: a match would have to run over that [$]. *)
Lemma match_token_app_none (u t : string) :
  u <> "" -> match_token u = None -> (t = "" \/ exists t', t = String "$" t') ->
  match_token (u ++ t) = None.
Proof.
  intros Hu Hm Ht. rewrite match_token_eq in *.
  destruct u as [|c [|d s]]; [congruence| |].
  - cbn [String.append]. destruct Ht as [-> | [t' ->]]; [reflexivity|].
    cbn. destruct (Ascii.eqb c "$"); reflexivity.
  - cbn [String.append] in *. destruct (Ascii.eqb c "$" && Ascii.eqb d "("); [|reflexivity].
    rewrite word_prefix_app.
    destruct (word_prefix s) as [w [|e r]].
    + destruct Ht as [-> | [t' ->]]; cbn; destruct w; reflexivity.
    + cbn [String.append]. destruct w as [|x w]; [reflexivity|].
      destruct (Ascii.eqb e ")"); [discriminate|reflexivity].
Qed.

Lemma match_token_app_some (u t w r : string) :
  match_token u = Some (w, r) -> match_token (u ++ t) = Some (w, r ++ t).
Proof.
  rewrite !match_token_eq. destruct u as [|c [|d s]]; try discriminate.
  cbn [String.append]. destruct (Ascii.eqb c "$" && Ascii.eqb d "("); [|discriminate].
  rewrite word_prefix_app. destruct (word_prefix s) as [w0 [|e r0]]; [destruct w0; discriminate|].
  cbn [String.append]. destruct w0 as [|x w0]; [discriminate|].
  destruct (Ascii.eqb e ")"); [|discriminate]. intros [= <- <-]. reflexivity.
Qed.

Lemma match_token_some (t w r : string) :
  match_token t = Some (w, r) -> t = "$(" ++ w ++ ")" ++ r /\ w <> "" /\ all_word w = true.
Proof.
  rewrite match_token_eq. destruct t as [|c [|d s]]; try discriminate.
  destruct (Ascii.eqb c "$") eqn:Ec; [|discriminate].
  destruct (Ascii.eqb d "(") eqn:Ed; [|discriminate].
  apply Ascii.eqb_eq in Ec, Ed. subst c d.
  destruct (word_prefix_spec s) as [Hs Hw].
  destruct (word_prefix s) as [w0 [|e r0]]; [destruct w0; discriminate|].
  destruct w0 as [|x w0]; [discriminate|].
  destruct (Ascii.eqb e ")") eqn:Ee; [|discriminate]. apply Ascii.eqb_eq in Ee. subst e.
  intros [= <- <-]. cbn in Hs, Hw. rewrite Hs. split; [reflexivity|].
  split; [discriminate|exact Hw].
Qed.

(** [re.sub] copies a text without a match up to a following [$]. *)
Lemma re_sub_plain_app (repl : string -> res string) (p t : string) :
  has_token p = false -> (t = "" \/ exists t', t = String "$" t') ->
  forall n, re_sub repl (String.length p + n) (p ++ t) = (r ← re_sub repl n t; Ok (p ++ r)).
Proof.
  intros Hp Ht. induction p as [|c p IH]; intros n; cbn [String.length String.append plus].
  - destruct (re_sub repl n t); reflexivity.
  - cbn [has_token] in Hp.
    destruct (match_token (String c p)) eqn:Em; [discriminate|].
    assert (E : match_token (String c (p ++ t)) = None)
      by exact (match_token_app_none (String c p) t ltac:(discriminate) Em Ht).
    cbn [re_sub]. rewrite E, (IH Hp n). destruct (re_sub repl n t); reflexivity.
Qed.

(** [re.sub] over a text cut into segments: one left-to-right pass. *)
Lemma re_sub_segs (repl : string -> res string) (segs : list (string * string)) (q : string) :
  Forall seg_ok segs -> has_token q = false ->
  forall n, String.length (seg_join segs q) <= n ->
  re_sub repl n (seg_join segs q) = subst_pass repl segs q.
Proof.
  intros Hs Hq. induction Hs as [|[p name] segs [Hp [Hn Hw]] Hs IH]; intros n Hl;
    cbn [seg_join subst_pass] in *.
  - apply re_sub_no_token; assumption.
  - cbn [fst snd] in Hp, Hn, Hw.
    rewrite !string_length_app in Hl. cbn [String.length] in Hl.
    replace n with (String.length p + (n - String.length p)) by lia.
    rewrite re_sub_plain_app by (auto; right; eexists; reflexivity).
    destruct (n - String.length p) as [|m] eqn:Em; [lia|].
    rewrite (re_sub_token_step repl m _ name (seg_join segs q))
      by (try apply match_token_name; auto; discriminate).
    rewrite (IH m) by lia.
    destruct (repl name), (subst_pass repl segs q); reflexivity.
Qed.

(** Every text can be cut into segments. *)
Lemma seg_split_len (n : nat) :
  forall t, String.length t <= n ->
  exists segs q, Forall seg_ok segs /\ has_token q = false /\ t = seg_join segs q.
Proof.
  induction n as [|n IH]; intros t Hl.
  - destruct t; [|cbn in Hl; lia]. exists [], "". repeat split; constructor.
  - destruct t as [|c t']; [exists [], ""; repeat split; constructor|].
    destruct (match_token (String c t')) as [[w r]|] eqn:Em.
    + destruct (match_token_some _ _ _ Em) as [Et [Hw Hall]].
      destruct (IH r) as [segs [q [Hs [Hq Hr]]]].
      { assert (L := f_equal String.length Et). rewrite !string_length_app in L.
        cbn [String.length] in L, Hl. lia. }
      exists (("", w) :: segs), q.
      split; [constructor; [split; [reflexivity|split; assumption]|exact Hs]|].
      split; [exact Hq|]. rewrite Et, Hr. reflexivity.
    + destruct (IH t') as [segs [q [Hs [Hq Ht']]]]; [cbn in Hl; lia|].
      subst t'. destruct segs as [|[p name] segs].
      * exists [], (String c q). split; [constructor|]. split; [|reflexivity].
        cbn [has_token]. cbn [seg_join] in Em. rewrite Em. exact Hq.
      * inversion Hs as [|? ? [Hp [Hn Hw]] Hs']; subst.
        exists ((String c p, name) :: segs), q.
        split; [constructor; [|exact Hs']|]; [|split; [exact Hq|reflexivity]].
        split; [|split; assumption]. cbn [fst has_token] in *.
        destruct (match_token (String c p)) as [[w r]|] eqn:Ep; [|exact Hp].
        exfalso.
        apply (match_token_app_some _ ("$(" ++ name ++ ")" ++ seg_join segs q)) in Ep.
        cut (match_token (String c p ++ ("$(" ++ name ++ ")" ++ seg_join segs q)) = None);
          [rewrite Ep; discriminate|exact Em].
Qed.

Lemma seg_split (t : string) :
  exists segs q, Forall seg_ok segs /\ has_token q = false /\ t = seg_join segs q.
Proof. exact (seg_split_len (String.length t) t (le_n _)). Qed.

(** [_lazy_format] over a template whose %-formatted text is cut into
    segments. *)
Lemma lazy_format_segs (dict_repr : gmap string string -> string) (d : nat) (env : Env)
    (s : string) (segs : list (string * string)) (q : string) :
  Forall seg_ok segs -> has_token q = false ->
  py_format dict_repr (py_str <$> env) s = Ok (seg_join segs q) ->
  _lazy_format dict_repr (S d) env (Some s) =
    (r ← subst_pass (replacer dict_repr d (py_str <$> env)) segs q; Ok (Some r)).
Proof.
  intros Hs Hq Hf. cbn [_lazy_format]. rewrite lazy_format_S_replacer, Hf.
  cbn [mbind res_bind]. rewrite re_sub_segs by first [assumption | lia]. reflexivity.
Qed.

Section KeyedLemmas.

Variable dict_repr : gmap string string -> string.

Lemma format_spec_key (env : gmap string string) (a : argst) (name rest : string) :
  str_has "(" name = false -> str_has ")" name = false ->
  format_spec dict_repr env a (String "(" (name ++ String ")" (String "s" rest))) =
    match env !! name with
    | Some v => Ok (v, {| a_src := ArgVal v; a_used := true |}, rest)
    | None => Err KeyError
    end.
Proof.
  intros Ho Hc. unfold format_spec. cbv beta iota.
  rewrite scan_key_plain by assumption.
  destruct (env !! name); reflexivity.
Qed.

(** A [%] followed by a character that starts no conversion specifier:
    the argument is fetched first, then the character refused. *)
Lemma format_spec_unsupported_any (env : gmap string string) (a : argst) (c : ascii) (r : string) :
  str_has c spec_chars = false ->
  format_spec dict_repr env a (String c r) = Err (if a_used a then TypeError else ValueError).
Proof.
  intros H. destruct a as [src []]; destruct c as [[] [] [] [] [] [] [] []]; vm_compute in H;
    first [discriminate | vm_compute; reflexivity].
Qed.

(** [%] over a keyed template followed by a text [t] whose formatting
    depends only on whether the argument is used. *)
Lemma fmt_loop_keyed (env : gmap string string) (pieces : list (string * string))
    (q t : string) (R : bool -> res string) :
  Forall key_ok pieces -> str_has "%" q = false ->
  (forall f a, String.length t <= f -> fmt_loop dict_repr f env a t = R (a_used a)) ->
  forall n a, String.length (keyed_join pieces q ++ t) <= n ->
  fmt_loop dict_repr n env a (keyed_join pieces q ++ t) =
    match interpolate env pieces q with
    | Some s => r ← R (match pieces with [] => a_used a | _ => true end); Ok (s ++ r)
    | None => Err KeyError
    end.
Proof.
  intros Hps Hq Ht. induction Hps as [|[p name] pieces [Hp [Ho Hc]] Hps IH]; intros n a Hl;
    cbn [keyed_join interpolate] in *.
  - rewrite string_length_app in Hl.
    replace n with (String.length q + (n - String.length q)) by lia.
    rewrite fmt_loop_app_plain by exact Hq. rewrite Ht by lia. reflexivity.
  - cbn [fst snd] in Hp, Ho, Hc.
    rewrite <- !string_app_assoc. rewrite <- !string_app_assoc in Hl.
    rewrite !string_length_app in Hl. cbn [String.length] in Hl.
    replace n with (String.length p + (n - String.length p)) by lia.
    rewrite fmt_loop_app_plain by exact Hp.
    destruct (n - String.length p) as [|m] eqn:Em; [lia|].
    cbn [String.append fmt_loop]. cbv [Ascii.eqb Bool.eqb].
    rewrite format_spec_key by assumption.
    destruct (env !! name) as [v|]; [|reflexivity]. cbn [mbind res_bind option_bind].
    rewrite (IH m) by (rewrite string_length_app; lia).
    destruct (interpolate env pieces q) as [s|]; [|reflexivity].
    cbn [a_used]. replace (match pieces with [] => true | _ :: _ => true end) with true
      by (destruct pieces; reflexivity).
    destruct (R true); [|reflexivity]. cbn [mbind res_bind].
    cbn [option_bind]. rewrite <- !string_app_assoc. reflexivity.
Qed.

Lemma py_format_keyed (env : gmap string string) (pieces : list (string * string))
    (q t : string) (R : bool -> res string) :
  Forall key_ok pieces -> str_has "%" q = false ->
  (forall f a, String.length t <= f -> fmt_loop dict_repr f env a t = R (a_used a)) ->
  py_format dict_repr env (keyed_join pieces q ++ t) =
    match interpolate env pieces q with
    | Some s => r ← R (match pieces with [] => false | _ => true end); Ok (s ++ r)
    | None => Err KeyError
    end.
Proof.
  intros Hps Hq Ht. unfold py_format.
  rewrite (fmt_loop_keyed env pieces q t R Hps Hq Ht) by lia. reflexivity.
Qed.

Lemma py_format_keyed_plain (env : gmap string string) (pieces : list (string * string))
    (q : string) :
  Forall key_ok pieces -> str_has "%" q = false ->
  py_format dict_repr env (keyed_join pieces q) =
    match interpolate env pieces q with Some s => Ok s | None => Err KeyError end.
Proof.
  intros Hps Hq. rewrite <- (string_app_nil_r (keyed_join pieces q)).
  rewrite (py_format_keyed env pieces q "" (fun _ => Ok "")) by
    (auto; intros [|f] a _; reflexivity).
  destruct (interpolate env pieces q); [|reflexivity].
  cbn [mbind res_bind]. rewrite string_app_nil_r. reflexivity.
Qed.

End KeyedLemmas.

(** [codes] on a string, with the keys compared by [String.eqb]. *)
Ltac codes_cases s :=
  let c := fresh "c" in
  let s' := fresh "s" in
  destruct s as [|c s']; [reflexivity|];
  destruct c as [[] [] [] [] [] [] [] []]; try reflexivity; codes_cases s'.

Lemma codes_str (s : string) :
  codes (PStr s) =
    if String.eqb s "ignore" then Ok (1, "")
    else if String.eqb s "warn" then Ok (2, "Warning: ")
    else if String.eqb s "abort" then Ok (3, "Error: ")
    else Err KeyError.
Proof. unfold codes. codes_cases s. Qed.

Lemma codes_not_policy (v : pyval) :
  policy_of_val v = None -> codes v = Err (match v with PList _ => TypeError | _ => KeyError end).
Proof.
  destruct v as [s| | | |]; intros H; try reflexivity.
  cbn [policy_of_val] in H. rewrite codes_str.
  destruct (String.eqb s "ignore"); [discriminate|].
  destruct (String.eqb s "warn"); [discriminate|].
  destruct (String.eqb s "abort"); [discriminate|]. reflexivity.
Qed.

(** ** C4: scope precedence of the merged environment *)

(** C4: a key of the merged per-host environment has its host-local value
    if set, else its user-local (identity) value if set, else its global
    value; in particular a host-local value shadows a global one. *)
Theorem get_env_precedence (global_env user_local_env host_local_env : Env) (k : string) :
  get_env global_env user_local_env host_local_env !! k =
    match host_local_env !! k with
    | Some v => Some v
    | None =>
        match user_local_env !! k with
        | Some v => Some v
        | None => global_env !! k
        end
    end
  /\ (forall v, host_local_env !! k = Some v ->
        get_env global_env user_local_env host_local_env !! k = Some v).
Proof.
  unfold get_env, dict_update.
  assert (E : (host_local_env ∪ (user_local_env ∪ global_env)) !! k =
    match host_local_env !! k with
    | Some v => Some v
    | None => match user_local_env !! k with Some v => Some v | None => global_env !! k end
    end).
  { rewrite !lookup_union.
    destruct (host_local_env !! k), (user_local_env !! k), (global_env !! k); reflexivity. }
  split; [exact E|]. intros v Hv. rewrite E, Hv. reflexivity.
Qed.

(** ** C6: lazy formatting of a string without tokens *)

(** C6 (as the code has it): a string with no [%] character and no
    [$(name)] token is returned unchanged by [_lazy_format], whatever the
    environment. *)
Theorem lazy_format_identity_plain (dict_repr : gmap string string -> string)
    (d : nat) (env : Env) (s : string) :
  str_has "%" s = false -> has_token s = false ->
  _lazy_format dict_repr (S d) env (Some s) = Ok (Some s).
Proof.
  intros Hp Ht. unfold _lazy_format. rewrite lazy_format_plain by assumption.
  reflexivity.
Qed.

Lemma lazy_format_identity_plain_witness :
  str_has "%" "deploy to host" = false /\ has_token "deploy to host" = false /\
  _lazy_format some_dict_repr 1 {["fab_host" := PStr "h"]} (Some "deploy to host")
    = Ok (Some "deploy to host").
Proof.
  split; [reflexivity|]. split; [reflexivity|].
  apply lazy_format_identity_plain; reflexivity.
Defined.

(** C6 fails as stated: ["%(a)s"] holds no [$(...)] token, yet
    [_lazy_format] rewrites it. *)
Lemma lazy_format_not_identity_eager :
  has_token "%(a)s" = false /\
  _lazy_format some_dict_repr 10 {["a" := PStr "x"]} (Some "%(a)s") = Ok (Some "x").
Proof. split; vm_compute; reflexivity. Qed.

(** ** C10: eager references are expanded when a string is consumed *)

(** C10: [_lazy_format] applies Python's [%] with the stringified
    environment to the whole template before the [$(name)] pass, and to
    every value it substitutes during that pass.  Consequently a template
    whose eager references are [%(name)s], among any other text without
    [%], is interpolated (a [KeyError] if a name is unbound), even when it
    holds no [$(...)] token; each [$(name)] token's value is %-formatted
    before its own lazy formatting; and a [%] that ends the template, or is
    followed by a character that starts no conversion specifier, after any
    such references, makes [_lazy_format] raise ([ValueError], or
    [TypeError] when a reference has already consumed the argument, or
    [KeyError] for an unbound reference before it). *)
Theorem lazy_format_eager_expansion (dict_repr : gmap string string -> string) :
  (forall (d : nat) (env : Env) (name : string) (v : pyval),
     str_has "(" name = false -> str_has ")" name = false ->
     env !! name = Some v -> has_token (py_str v) = false ->
     _lazy_format dict_repr (S d) env (Some ("%(" ++ name ++ ")s")) = Ok (Some (py_str v)))
  /\ (forall (d : nat) (env : Env) (name : string) (v : pyval),
     name <> "" -> all_word name = true -> env !! name = Some v ->
     _lazy_format dict_repr (S d) env (Some ("$(" ++ name ++ ")")) =
       (r ← (v' ← py_format dict_repr (py_str <$> env) (py_str v);
             lazy_format dict_repr d (py_str <$> env) v');
        Ok (Some r)))
  /\ (forall (d : nat) (env : Env) (p : string),
     str_has "%" p = false ->
     _lazy_format dict_repr (S d) env (Some (p ++ "%")) = Err ValueError)
  /\ (forall (d : nat) (env : Env) (p : string) (c : ascii) (r : string),
     str_has "%" p = false -> str_has c spec_chars = false ->
     _lazy_format dict_repr (S d) env (Some (p ++ String "%" (String c r))) = Err ValueError)
  /\ (forall (d : nat) (env : Env) (pieces : list (string * string)) (q : string),
     Forall key_ok pieces -> str_has "%" q = false ->
     _lazy_format dict_repr (S d) env (Some (keyed_join pieces q)) =
       match interpolate (py_str <$> env) pieces q with
       | Some t =>
           r ← re_sub (replacer dict_repr d (py_str <$> env)) (String.length t) t;
           Ok (Some r)
       | None => Err KeyError
       end)
  /\ (forall (d : nat) (env : Env) (pieces : list (string * string)) (q t : string),
     Forall key_ok pieces -> str_has "%" q = false ->
     interpolate (py_str <$> env) pieces q = Some t -> has_token t = false ->
     _lazy_format dict_repr (S d) env (Some (keyed_join pieces q)) = Ok (Some t))
  /\ (forall (d : nat) (env : Env) (s : string) (segs : list (string * string)) (q : string),
     Forall seg_ok segs -> has_token q = false ->
     py_format dict_repr (py_str <$> env) s = Ok (seg_join segs q) ->
     _lazy_format dict_repr (S d) env (Some s) =
       (r ← subst_pass (fun var =>
              match (py_str <$> env) !! var with
              | Some v => v' ← py_format dict_repr (py_str <$> env) v;
                          lazy_format dict_repr d (py_str <$> env) v'
              | None => Ok ("$(" ++ var ++ ")")
              end) segs q;
        Ok (Some r)))
  /\ (forall (d : nat) (env : Env) (pieces : list (string * string)) (q : string),
     Forall key_ok pieces -> str_has "%" q = false ->
     _lazy_format dict_repr (S d) env (Some (keyed_join pieces q ++ "%")) =
       Err (match interpolate (py_str <$> env) pieces q with
            | Some _ => ValueError
            | None => KeyError
            end))
  /\ (forall (d : nat) (env : Env) (pieces : list (string * string)) (q : string)
            (c : ascii) (r : string),
     Forall key_ok pieces -> str_has "%" q = false -> str_has c spec_chars = false ->
     _lazy_format dict_repr (S d) env (Some (keyed_join pieces q ++ String "%" (String c r))) =
       Err (match interpolate (py_str <$> env) pieces q, pieces with
            | None, _ => KeyError
            | Some _, [] => ValueError
            | Some _, _ :: _ => TypeError
            end)).
Proof.
  refine (conj _ (conj _ (conj _ (conj _ (conj _ (conj _ (conj _ (conj _ _)))))))).
  - intros d env name v Ho Hc Hv Ht. unfold _lazy_format. cbn [lazy_format].
    rewrite py_format_key with (v := py_str v) by (auto; rewrite lookup_fmap, Hv; reflexivity).
    cbn [mbind res_bind]. rewrite re_sub_no_token by (auto; lia). reflexivity.
  - intros. apply lazy_format_token_bound; assumption.
  - intros d env p Hp. unfold _lazy_format. cbn [lazy_format].
    rewrite py_format_trailing_pct by exact Hp. reflexivity.
  - intros d env p c r Hp Hc. unfold _lazy_format. cbn [lazy_format].
    rewrite py_format_unsupported by assumption. reflexivity.
  - intros d env pieces q Hps Hq. cbn [_lazy_format]. rewrite lazy_format_S_replacer.
    rewrite py_format_keyed_plain by assumption.
    destruct (interpolate (py_str <$> env) pieces q); reflexivity.
  - intros d env pieces q t Hps Hq Hi Ht. cbn [_lazy_format]. rewrite lazy_format_S_replacer.
    rewrite py_format_keyed_plain, Hi by assumption. cbn [mbind res_bind].
    rewrite re_sub_no_token by (auto; lia). reflexivity.
  - intros d env s segs q Hs Hq Hf. exact (lazy_format_segs dict_repr d env s segs q Hs Hq Hf).
  - intros d env pieces q Hps Hq. cbn [_lazy_format]. rewrite lazy_format_S_replacer.
    rewrite (py_format_keyed dict_repr _ pieces q "%" (fun _ => Err ValueError)) by
      (first [assumption | intros [|f] a Hl; [cbn in Hl; lia|destruct a; reflexivity]]).
    destruct (interpolate (py_str <$> env) pieces q); reflexivity.
  - intros d env pieces q c r Hps Hq Hc. cbn [_lazy_format]. rewrite lazy_format_S_replacer.
    rewrite (py_format_keyed dict_repr _ pieces q (String "%" (String c r))
               (fun used => Err (if used then TypeError else ValueError))).
    + destruct (interpolate (py_str <$> env) pieces q), pieces; reflexivity.
    + exact Hps.
    + exact Hq.
    + intros [|f] a Hl; [cbn in Hl; lia|]. cbn [fmt_loop]. cbv [Ascii.eqb Bool.eqb].
      rewrite format_spec_unsupported_any by exact Hc. reflexivity.
Qed.

Lemma lazy_format_eager_expansion_witness :
  _lazy_format some_dict_repr 1 {["fab_user" := PStr "joe"]} (Some "%(fab_user)s")
    = Ok (Some "joe")
  /\ _lazy_format some_dict_repr 2 {["a" := PStr "%(b)s"; "b" := PStr "y"]} (Some "$(a)")
    = Ok (Some "y")
  /\ _lazy_format some_dict_repr 1 ∅ (Some "50%") = Err ValueError
  /\ _lazy_format some_dict_repr 1 ∅ (Some "disk 100%!") = Err ValueError
  /\ _lazy_format some_dict_repr 3 {["fab_user" := PStr "joe"; "fab_host" := PStr "web1"]}
       (Some "deploy %(fab_user)s@$(fab_host)") = Ok (Some "deploy joe@web1")
  /\ _lazy_format some_dict_repr 1 {["fab_user" := PStr "joe"]} (Some "user %(fab_user)s ok")
    = Ok (Some "user joe ok")
  /\ _lazy_format some_dict_repr 2 {["a" := PStr "%(b)s!"; "b" := PStr "y"]}
       (Some "[$(a)]") = Ok (Some "[y!]")
  /\ _lazy_format some_dict_repr 1 {["a" := PStr "x"]} (Some "%(a)s 100%") = Err ValueError
  /\ _lazy_format some_dict_repr 1 {["a" := PStr "x"]} (Some "%(a)s 100%!") = Err TypeError.
Proof.
  destruct (lazy_format_eager_expansion some_dict_repr)
    as [H1 [H2 [H3 [H4 [H5 [H6 [H7 [H8 H9]]]]]]]].
  assert (K1 : Forall key_ok [("deploy ", "fab_user")])
    by (constructor; [split; [|split]; reflexivity | constructor]).
  assert (K2 : Forall key_ok [("user ", "fab_user")])
    by (constructor; [split; [|split]; reflexivity | constructor]).
  assert (K3 : Forall key_ok [("", "a")])
    by (constructor; [split; [|split]; reflexivity | constructor]).
  split; [|split; [|split; [|split; [|split; [|split; [|split; [|split]]]]]]].
  - apply (H1 0 _ "fab_user" (PStr "joe")); reflexivity.
  - rewrite (H2 1 _ "a" (PStr "%(b)s")) by (try discriminate; reflexivity).
    vm_compute. reflexivity.
  - apply (H3 0 ∅ "50"). reflexivity.
  - apply (H4 0 ∅ "disk 100" "!"%char ""); reflexivity.
  - refine (eq_trans (H5 2 {["fab_user" := PStr "joe"; "fab_host" := PStr "web1"]} [("deploy ", "fab_user")] "@$(fab_host)" K1 eq_refl) _).
    vm_compute. reflexivity.
  - exact (H6 0 {["fab_user" := PStr "joe"]} [("user ", "fab_user")] " ok" "user joe ok" K2 eq_refl eq_refl eq_refl).
  - refine (eq_trans (H7 1 {["a" := PStr "%(b)s!"; "b" := PStr "y"]} "[$(a)]" [("[", "a")] "]" _ eq_refl eq_refl) _).
    + constructor; [split; [reflexivity|split; [discriminate|reflexivity]]|constructor].
    + vm_compute. reflexivity.
  - exact (H8 0 {["a" := PStr "x"]} [("", "a")] " 100" K3 eq_refl).
  - exact (H9 0 {["a" := PStr "x"]} [("", "a")] " 100" "!"%char "" K3 eq_refl eq_refl).
Defined.

(** ** C5: recursive lazy substitution *)

Lemma lazy_format_cycle (dict_repr : gmap string string -> string) (d : nat) :
  lazy_format dict_repr d (py_str <$> {["a" := PStr "$(a)"]}) "$(a)" = Err RuntimeError.
Proof.
  induction d as [|d IH]; [reflexivity|].
  rewrite (lazy_format_token dict_repr d _ "a") by (try discriminate; reflexivity).
  assert (E : (py_str <$> ({["a" := PStr "$(a)"]} : Env)) !! "a" = Some "$(a)")
    by reflexivity.
  rewrite E, py_format_no_pct by reflexivity. exact IH.
Qed.

(** C5 (as the code has it): [_lazy_format] first applies [%] to the
    template (an error there is raised), then cuts the result at its
    [$(name)] tokens ([name] a run of word characters; every text can be
    cut so) and replaces the tokens in one left-to-right pass: an unbound
    name is left verbatim; a bound name by its value, %-formatted and then
    lazily formatted one level deeper; each replacement is put between the
    texts around it without being scanned again with them.  The spec's
    examples hold, and a binding that refers to itself recurses until the
    recursion limit. *)
Theorem lazy_format_resolution (dict_repr : gmap string string -> string) :
  (forall (d : nat) (env : Env) (name : string),
     name <> "" -> all_word name = true -> env !! name = None ->
     _lazy_format dict_repr (S d) env (Some ("$(" ++ name ++ ")")) =
       Ok (Some ("$(" ++ name ++ ")")))
  /\ (forall (d : nat) (env : Env) (name : string) (v : pyval),
     name <> "" -> all_word name = true -> env !! name = Some v ->
     _lazy_format dict_repr (S d) env (Some ("$(" ++ name ++ ")")) =
       (r ← (v' ← py_format dict_repr (py_str <$> env) (py_str v);
             lazy_format dict_repr d (py_str <$> env) v');
        Ok (Some r)))
  /\ (forall d : nat,
     _lazy_format dict_repr (S (S d)) {["a" := PStr "x"]} (Some "$(a)") = Ok (Some "x"))
  /\ (forall d : nat,
     _lazy_format dict_repr (S (S (S d))) (<["a" := PStr "$(b)"]> {["b" := PStr "y"]})
       (Some "$(a)") = Ok (Some "y"))
  /\ (forall d : nat,
     _lazy_format dict_repr (S d) ∅ (Some "$(missing)") = Ok (Some "$(missing)"))
  /\ (forall d : nat,
     _lazy_format dict_repr d {["a" := PStr "$(a)"]} (Some "$(a)") = Err RuntimeError)
  /\ (forall (d : nat) (env : Env) (s : string) (segs : list (string * string)) (q : string),
     Forall seg_ok segs -> has_token q = false ->
     py_format dict_repr (py_str <$> env) s = Ok (seg_join segs q) ->
     _lazy_format dict_repr (S d) env (Some s) =
       (r ← subst_pass (replacer dict_repr d (py_str <$> env)) segs q; Ok (Some r)))
  /\ (forall (d : nat) (env : Env) (s : string) (e : pyexc),
     py_format dict_repr (py_str <$> env) s = Err e ->
     _lazy_format dict_repr (S d) env (Some s) = Err e)
  /\ (forall t : string,
     exists segs q, Forall seg_ok segs /\ has_token q = false /\ t = seg_join segs q).
Proof.
  refine (conj _ (conj _ (conj _ (conj _ (conj _ (conj _ (conj _ (conj _ _)))))))).
  - intros d env name Hn Hw Hv. unfold _lazy_format. cbv beta iota.
    rewrite lazy_format_token by assumption. rewrite lookup_fmap, Hv. reflexivity.
  - intros. apply lazy_format_token_bound; assumption.
  - intros d. rewrite (lazy_format_token_bound dict_repr (S d) _ "a" (PStr "x"))
      by (try discriminate; reflexivity).
    vm_compute. reflexivity.
  - intros d. vm_compute. reflexivity.
  - intros d. vm_compute. reflexivity.
  - intros d. unfold _lazy_format. rewrite lazy_format_cycle. reflexivity.
  - intros d env s segs q Hs Hq Hf. exact (lazy_format_segs dict_repr d env s segs q Hs Hq Hf).
  - intros d env s e Hf. cbn [_lazy_format]. rewrite lazy_format_S_replacer, Hf. reflexivity.
  - exact seg_split.
Qed.

Lemma lazy_format_resolution_witness :
  _lazy_format some_dict_repr 5 {["fab_host" := PStr "web1"]} (Some "$(fab_user)")
    = Ok (Some "$(fab_user)")
  /\ _lazy_format some_dict_repr 5 {["fab_host" := PStr "web1"]} (Some "$(fab_host)")
    = Ok (Some "web1")
  /\ _lazy_format some_dict_repr 5 {["fab_host" := PStr "web1"; "dir" := PStr "$(root)/x"]}
       (Some "cd $(dir) on $(fab_host), $(missing)!")
    = Ok (Some "cd $(root)/x on web1, $(missing)!")
  /\ _lazy_format some_dict_repr 5 {["fab_host" := PStr "web1"]} (Some "$(fab_host) 100%")
    = Err ValueError.
Proof.
  destruct (lazy_format_resolution some_dict_repr)
    as [H1 [H2 [_ [_ [_ [_ [H7 [H8 _]]]]]]]].
  split; [|split; [|split]].
  - apply (H1 4 _ "fab_user"); [discriminate | reflexivity | reflexivity].
  - rewrite (H2 4 _ "fab_host" (PStr "web1")) by (try discriminate; reflexivity).
    vm_compute. reflexivity.
  - refine (eq_trans (H7 4 {["fab_host" := PStr "web1"; "dir" := PStr "$(root)/x"]}
      "cd $(dir) on $(fab_host), $(missing)!"
      [("cd ", "dir"); (" on ", "fab_host"); (", ", "missing")] "!" _ eq_refl _) _).
    + repeat constructor; try reflexivity; discriminate.
    + vm_compute. reflexivity.
    + vm_compute. reflexivity.
  - apply (H8 4 {["fab_host" := PStr "web1"]} "$(fab_host) 100%" ValueError).
    vm_compute. reflexivity.
Defined.

(** C5 fails as stated: a token assembled from a replacement and the text
    around it is not rescanned, so the result can still hold a [$(name)]
    token with [name] bound. *)
Lemma lazy_format_leaves_resolvable_token :
  _lazy_format some_dict_repr 10 (<["a" := PStr "b"]> {["b" := PStr "y"]}) (Some "$($(a))")
    = Ok (Some "$(b)")
  /\ has_bound_token (py_str <$> (<["a" := PStr "b"]> {["b" := PStr "y"]} : Env)) "$(b)" = true.
Proof. split; vm_compute; reflexivity. Qed.

(** ** C7: splitting a host string *)

Lemma partition_no_sep (s : string) (c : ascii) :
  str_has c s = false -> partition s c = (s, "", "").
Proof.
  induction s as [|d s IH]; [reflexivity|]. cbn [str_has partition].
  intros H. apply orb_false_iff in H as [Hd Hs].
  rewrite Ascii.eqb_sym, Hd, IH by exact Hs. reflexivity.
Qed.

Lemma partition_first (u r : string) (c : ascii) :
  str_has c u = false -> partition (u ++ String c r) c = (u, String c "", r).
Proof.
  induction u as [|d u IH]; cbn [String.append str_has partition].
  - rewrite Ascii.eqb_refl. reflexivity.
  - intros H. apply orb_false_iff in H as [Hd Hu].
    rewrite Ascii.eqb_sym, Hd, IH by exact Hu. reflexivity.
Qed.

Lemma str_has_sep (u r : string) (c : ascii) : str_has c (u ++ String c r) = true.
Proof. rewrite str_has_app. cbn [str_has]. rewrite Ascii.eqb_refl, orb_true_r. reflexivity. Qed.

(** C7 fails as stated: [_connect] splits at the first [@], not the last,
    so the hostname keeps the later [@]. *)
Lemma parse_host_first_at :
  parse_host (PStr "alice") (PInt 22) "a@b@h:1" = Ok (PStr "a", "b@h", 1%Z).
Proof. vm_compute. reflexivity. Qed.

(** C7 (as the code has it): the identity is the text before the FIRST
    [@] (the global [fab_user] when there is no [@] or the text is empty),
    the hostname runs from there to the first [:], and the port is the rest
    ([fab_port] when empty), converted with [int()]; the spec's two
    examples hold. *)
Theorem parse_host_split (username def_port : pyval) :
  (forall u h p : string,
     str_has "@" u = false -> str_has ":" h = false ->
     parse_host username def_port (u ++ "@" ++ h ++ ":" ++ p) =
       (n ← py_int (if String.eqb p "" then def_port else PStr p);
        Ok (if String.eqb u "" then username else PStr u, h, n)))
  /\ (forall u h : string,
     str_has "@" u = false -> str_has ":" h = false ->
     parse_host username def_port (u ++ "@" ++ h) =
       (n ← py_int def_port; Ok (if String.eqb u "" then username else PStr u, h, n)))
  /\ (forall h p : string,
     str_has "@" h = false -> str_has "@" p = false -> str_has ":" h = false ->
     parse_host username def_port (h ++ ":" ++ p) =
       (n ← py_int (if String.eqb p "" then def_port else PStr p); Ok (username, h, n)))
  /\ (forall h : string,
     str_has "@" h = false -> str_has ":" h = false ->
     parse_host username def_port h = (n ← py_int def_port; Ok (username, h, n)))
  /\ parse_host (PStr "alice") (PInt 22) "dev@host2:2222" = Ok (PStr "dev", "host2", 2222%Z)
  /\ parse_host (PStr "alice") (PInt 22) "host3" = Ok (PStr "alice", "host3", 22%Z).
Proof.
  split; [|split; [|split; [|split; [|split]]]].
  - intros u h p Hu Hh. unfold parse_host. cbn [String.append].
    rewrite str_has_sep, partition_first by exact Hu.
    cbv beta iota. rewrite partition_first by exact Hh. reflexivity.
  - intros u h Hu Hh. unfold parse_host. cbn [String.append].
    rewrite str_has_sep, partition_first by exact Hu.
    cbv beta iota. rewrite partition_no_sep by exact Hh. reflexivity.
  - intros h p Hh Hp Hc. unfold parse_host.
    assert (E : str_has "@" (h ++ ":" ++ p) = false).
    { rewrite str_has_app, Hh. cbn [String.append str_has]. exact Hp. }
    rewrite E. cbv beta iota. cbn [String.append]. rewrite partition_first by exact Hc. reflexivity.
  - intros h Hh Hc. unfold parse_host. rewrite Hh. cbv beta iota.
    rewrite partition_no_sep by exact Hc. reflexivity.
  - vm_compute. reflexivity.
  - vm_compute. reflexivity.
Qed.

Lemma parse_host_split_witness :
  parse_host (PStr "alice") (PInt 22) "deploy@web1:2200" = Ok (PStr "deploy", "web1", 2200%Z)
  /\ parse_host (PStr "alice") (PInt 22) "web2" = Ok (PStr "alice", "web2", 22%Z).
Proof.
  destruct (parse_host_split (PStr "alice") (PInt 22)) as [H1 [_ [_ [H4 _]]]]. split.
  - exact (H1 "deploy" "web1" "2200" eq_refl eq_refl).
  - exact (H4 "web2" eq_refl eq_refl).
Defined.

(** ** C1: the failure policy *)

Lemma codes_policy (v : pyval) (p : policy) :
  policy_of_val v = Some p ->
  codes v = Ok (match p with
                | Ignore => (1, "")
                | Warn => (2, "Warning: ")
                | Abort => (3, "Error: ")
                end).
Proof.
  destruct v as [s| | | |]; cbn [policy_of_val]; try discriminate.
  destruct (String.eqb s "ignore") eqn:E1;
    [apply String.eqb_eq in E1; subst; intros [= <-]; reflexivity|].
  destruct (String.eqb s "warn") eqn:E2;
    [apply String.eqb_eq in E2; subst; intros [= <-]; reflexivity|].
  destruct (String.eqb s "abort") eqn:E3;
    [apply String.eqb_eq in E3; subst; intros [= <-]; reflexivity|].
  discriminate.
Qed.

(** C1 (as the code has it): [_fail] first evaluates
    [codes[env['fab_fail']]] and only then looks at the [fail] keyword.
    When the environment's [fab_fail] is one of ignore, warn, abort and the
    keyword, if given, is one too, the policy is the keyword's if given,
    else the environment's; ignore does nothing, warn prints the prefixed,
    lazily formatted message and returns, abort prints it and raises
    [SystemExit(1)] (an error of the lazy formatting is raised instead).
    The default abort is the value the global [ENV] starts with, which the
    merged environment keeps unless the user-local or host-local layer
    binds [fab_fail].  The keyword does not take precedence: when the
    environment's [fab_fail] is missing or not a policy, [_fail] raises
    ([KeyError], or [TypeError] for a list) and prints nothing, whatever
    the keyword says; an invalid keyword raises the same way.  So after
    [set(fab_fail='Warn')] a rolling run with [fail='warn'] whose
    operation fails on its first host dies of a [KeyError]. *)
Theorem fail_policy :
  (forall (dict_repr : gmap string string -> string) (depth : nat)
          (kwargs env : Env) (msg : string) (v : pyval) (pe : policy),
     env !! "fab_fail" = Some v -> policy_of_val v = Some pe ->
     (forall f, kwargs !! "fail" = Some f -> is_Some (policy_of_val f)) ->
     _fail dict_repr depth kwargs msg env =
       apply_policy dict_repr depth (resolve_policy (kwargs !! "fail") pe) env msg)
  /\ (forall fab_user fab_timestamp : string,
     ENV0 fab_user fab_timestamp !! "fab_fail" = Some (PStr "abort"))
  /\ (forall global_env user_local_env host_local_env : Env,
     user_local_env !! "fab_fail" = None -> host_local_env !! "fab_fail" = None ->
     get_env global_env user_local_env host_local_env !! "fab_fail" =
       global_env !! "fab_fail")
  /\ (forall (dict_repr : gmap string string -> string) (depth : nat)
          (kwargs env : Env) (msg : string),
     (forall v, env !! "fab_fail" = Some v -> policy_of_val v = None) ->
     _fail dict_repr depth kwargs msg env =
       ([], Err (match env !! "fab_fail" with Some (PList _) => TypeError | _ => KeyError end)))
  /\ (forall (dict_repr : gmap string string -> string) (depth : nat)
          (kwargs env : Env) (msg : string) (v f : pyval),
     env !! "fab_fail" = Some v -> is_Some (policy_of_val v) ->
     kwargs !! "fail" = Some f -> policy_of_val f = None ->
     _fail dict_repr depth kwargs msg env =
       ([], Err (match f with PList _ => TypeError | _ => KeyError end)))
  /\ (forall (dict_repr : gmap string string -> string) (d : nat),
     _rolling_strategy dict_repr (S d) unit "run" op_false tt
       {| st_global := fst (set_vars (fun e s => py_format dict_repr (py_str <$> e) s)
                              (st_global run_store) [("fab_fail", PStr "Warn")]);
          st_users := st_users run_store |}
       run_conns {["fail" := PStr "warn"]}
     = (tt, ([Invoke (PStr "A") None], Err KeyError))).
Proof.
  refine (conj _ (conj _ (conj _ (conj _ (conj _ _))))).
  - intros dict_repr depth kwargs env msg v pe Hv Hpe Hk.
    unfold _fail, fail_code, env_get. rewrite Hv. cbn [mbind res_bind].
    rewrite (codes_policy v pe Hpe). unfold resolve_policy.
    destruct (kwargs !! "fail") as [f|] eqn:Hf.
    + destruct (Hk f eq_refl) as [q Hq]. cbn [mbind option_bind].
      rewrite Hq, (codes_policy f q Hq).
      destruct pe, q; cbn -[lazy_fmt]; try reflexivity;
        destruct (lazy_fmt dict_repr depth env msg); reflexivity.
    + destruct pe; cbn -[lazy_fmt]; try reflexivity;
        destruct (lazy_fmt dict_repr depth env msg); reflexivity.
  - intros. reflexivity.
  - intros g u h Hu Hh. unfold get_env, dict_update.
    rewrite !lookup_union, Hu, Hh. destruct (g !! "fab_fail"); reflexivity.
  - intros dict_repr depth kwargs env msg Hv.
    unfold _fail, fail_code, env_get.
    destruct (env !! "fab_fail") as [v|]; [|reflexivity].
    cbn [mbind res_bind]. rewrite (codes_not_policy v (Hv v eq_refl)). reflexivity.
  - intros dict_repr depth kwargs env msg v f Hv [pe Hpe] Hf Hnf.
    unfold _fail, fail_code, env_get. rewrite Hv. cbn [mbind res_bind].
    rewrite (codes_policy v pe Hpe). cbn [mbind res_bind]. rewrite Hf.
    rewrite (codes_not_policy f Hnf). destruct pe; reflexivity.
  - intros dict_repr d. vm_compute. reflexivity.
Qed.

Lemma fail_policy_witness :
  _fail some_dict_repr 10 {["fail" := PStr "warn"]} "disk full"
    (<["fab_fail" := PStr "abort"]> ∅) = ([Print "Warning: disk full"], Ok tt)
  /\ _fail some_dict_repr 10 ∅ "disk full" (ENV0 "alice" "ts")
    = ([Print "Error: disk full"], Err (SystemExit 1))
  /\ _fail some_dict_repr 10 {["fail" := PStr "warn"]} "disk full"
       (<["fab_fail" := PStr "Warn"]> (ENV0 "alice" "ts")) = ([], Err KeyError)
  /\ _fail some_dict_repr 10 {["fail" := PStr "stop"]} "disk full" (ENV0 "alice" "ts")
    = ([], Err KeyError).
Proof.
  destruct fail_policy as [H [_ [_ [H4 [H5 _]]]]]. split; [|split; [|split]].
  - refine (eq_trans (H some_dict_repr 10 {["fail" := PStr "warn"]}
      (<["fab_fail" := PStr "abort"]> ∅) "disk full" (PStr "abort") Abort eq_refl eq_refl _) _).
    + intros f Hf. vm_compute in Hf. injection Hf as <-. eexists. reflexivity.
    + vm_compute. reflexivity.
  - refine (eq_trans (H some_dict_repr 10 ∅ (ENV0 "alice" "ts") "disk full"
      (PStr "abort") Abort eq_refl eq_refl _) _).
    + intros f Hf. discriminate.
    + vm_compute. reflexivity.
  - refine (eq_trans (H4 some_dict_repr 10 {["fail" := PStr "warn"]}
      (<["fab_fail" := PStr "Warn"]> (ENV0 "alice" "ts")) "disk full" _) _).
    + intros v Hv. vm_compute in Hv. injection Hv as <-. reflexivity.
    + vm_compute. reflexivity.
  - refine (H5 some_dict_repr 10 {["fail" := PStr "stop"]} (ENV0 "alice" "ts") "disk full"
      (PStr "abort") (PStr "stop") eq_refl _ eq_refl eq_refl).
    eexists. reflexivity.
Defined.

(** ** C3: faults of an operation *)

(** C3 (a fault that escapes): an operation raising an exception whose text
    ends in [%] (here [disk 100%]) under the warn or abort policy.
    [_try_run_operation] catches it and hands the diagnostic to [_fail], but
    [_fail] lazily formats the diagnostic with [%], which raises
    [ValueError]; the error leaves [_try_run_operation] and the rolling
    strategy, the next host is never run, and the process dies of an
    uncaught [ValueError] instead of the failure engine's exit. *)
Theorem try_run_operation_format_fault (dict_repr : gmap string string -> string) (d : nat) :
  let env := op_env "run" run_store (mk_conn "A" 22 "alice" 0) in
  _try_run_operation dict_repr (S d) unit (op_raise "disk 100%") tt (PStr "A") None env ∅
    = (tt, ([Invoke (PStr "A") None], Err ValueError))
  /\ _try_run_operation dict_repr (S d) unit (op_raise "disk 100%") tt (PStr "A") None env
       {["fail" := PStr "warn"]}
    = (tt, ([Invoke (PStr "A") None], Err ValueError))
  /\ _rolling_strategy dict_repr (S d) unit "run" (op_raise "disk 100%") tt run_store
       run_conns ∅
    = (tt, ([Invoke (PStr "A") None], Err ValueError)).
Proof. split; [|split]; vm_compute; reflexivity. Qed.

(** ** C9: abort under the fanout strategy *)

(** C9 (the fanout strategy does not stop the run): with the default abort
    policy and an operation that fails everywhere, over hosts [A] and [B],
    each worker's [_fail] raises [SystemExit(1)], which only ends that
    worker thread; [_fanout_strategy] returns normally, so the run goes on.
    The threads' closures also read the loop's last [host] and [env], so
    both invocations are on [B] and [A] is never run. *)
Theorem fanout_abort_does_not_stop_run (dict_repr : gmap string string -> string) (d : nat) :
  _fanout_strategy dict_repr (S (S d)) unit "run" op_false tt run_store run_conns ∅
    = (tt, ([Invoke (PStr "B") None; Print "Error: The run operation failed on B.";
             Invoke (PStr "B") None; Print "Error: The run operation failed on B."], Ok tt))
  /\ _rolling_strategy dict_repr (S (S d)) unit "run" op_false tt run_store run_conns ∅
    = (tt, ([Invoke (PStr "A") None; Print "Error: The run operation failed on A."],
            Err (SystemExit 1))).
Proof. split; vm_compute; reflexivity. Qed.

(** ** C2: the rolling strategy *)

Lemma invocations_app (a b : list event) :
  invocations (a ++ b) = (invocations a ++ invocations b)%list.
Proof. induction a as [|[] a IH]; cbn [invocations app]; rewrite ?IH; reflexivity. Qed.

Section RollingLemmas.

Variable dict_repr : gmap string string -> string.
Variable depth : nat.
Variable op_state : Type.
Variable fn_name : string.
Variable fn : op_state -> pyval -> option nat -> Env -> Env -> op_state * op_outcome.

Lemma fail_no_invoke (kwargs : Env) (msg : string) (env : Env) :
  invocations (_fail dict_repr depth kwargs msg env).1 = [].
Proof.
  unfold _fail. cbn [mbind io_mbind io_bind io_lift].
  destruct (fail_code kwargs env) as [[code prefix]|e]; [|reflexivity].
  destruct code as [|[|[|k]]]; cbn -[lazy_fmt]; try reflexivity;
    destruct (lazy_fmt dict_repr depth env msg); reflexivity.
Qed.

Lemma fail_abort (kwargs : Env) (msg : string) (env : Env) (prefix : string) :
  fail_code kwargs env = Ok (3, prefix) ->
  exists e, (_fail dict_repr depth kwargs msg env).2 = Err e.
Proof.
  intros H. unfold _fail. cbn [mbind io_mbind io_bind io_lift]. rewrite H.
  cbn -[lazy_fmt]. destruct (lazy_fmt dict_repr depth env msg) as [m|e]; cbn; eauto.
Qed.

(** One invocation emits [Invoke] for its host and nothing else invokes. *)
Lemma try_run_invocations (s : op_state) (host : pyval) (client : option nat) (env kwargs : Env) :
  invocations (_try_run_operation dict_repr depth op_state fn s host client env kwargs).2.1
    = [host].
Proof.
  unfold _try_run_operation. destruct (fn s host client env kwargs) as [s' out].
  cbn [snd fst mbind io_mbind io_bind io_emit].
  pose proof (fail_no_invoke kwargs (err_msg ++ ".") env) as N2.
  destruct out as [v|e|code].
  - destruct (truthy v); cbn [mret io_mret io_ret]; [reflexivity|].
    destruct (_fail dict_repr depth kwargs _ env) as [o r]. cbn in N2 |- *.
    rewrite N2. reflexivity.
  - pose proof (fail_no_invoke kwargs (err_msg ++ ":" ++ String LF EmptyString ++ _indent e) env)
      as N1.
    destruct (_fail dict_repr depth kwargs (err_msg ++ ":" ++ String LF EmptyString ++ _indent e) env)
      as [o1 [u|e1]]; cbn in N1.
    + destruct (_fail dict_repr depth kwargs (err_msg ++ ".") env) as [o2 r2]. cbn in N2 |- *.
      rewrite invocations_app, N1, N2. reflexivity.
    + cbn. rewrite N1. reflexivity.
  - reflexivity.
Qed.

(** Under abort, a failing outcome makes the invocation raise. *)
Lemma try_run_abort (s s' : op_state) (host : pyval) (client : option nat) (env kwargs : Env)
    (out : op_outcome) (prefix : string) :
  fn s host client env kwargs = (s', out) -> failing out = true ->
  fail_code kwargs env = Ok (3, prefix) ->
  exists o e, _try_run_operation dict_repr depth op_state fn s host client env kwargs
                = (s', (o, Err e)).
Proof.
  intros Hfn Hout Hc. unfold _try_run_operation. rewrite Hfn.
  cbn [snd fst mbind io_mbind io_bind io_emit].
  destruct out as [v|e|code]; cbn [failing] in Hout; [| |discriminate].
  - apply negb_true_iff in Hout. rewrite Hout.
    destruct (fail_abort kwargs (err_msg ++ ".") env prefix Hc) as [e He].
    destruct (_fail dict_repr depth kwargs (err_msg ++ ".") env) as [o r].
    cbn in He. subst r. eauto.
  - destruct (fail_abort kwargs (err_msg ++ ":" ++ String LF EmptyString ++ _indent e) env
      prefix Hc) as [e1 He1].
    destruct (_fail dict_repr depth kwargs (err_msg ++ ":" ++ String LF EmptyString ++ _indent e) env)
      as [o1 r1].
    cbn in He1. subst r1. cbn. eauto.
Qed.

Lemma rolling_app (s s1 : op_state) (st : store) (pre rest : list hconn) (kwargs : Env)
    (o1 : list event) :
  _rolling_strategy dict_repr depth op_state fn_name fn s st pre kwargs = (s1, (o1, Ok tt)) ->
  _rolling_strategy dict_repr depth op_state fn_name fn s st (pre ++ rest) kwargs =
    let '(s2, (o2, r2)) := _rolling_strategy dict_repr depth op_state fn_name fn s1 st rest kwargs in
    (s2, ((o1 ++ o2)%list, r2)).
Proof.
  revert s o1. induction pre as [|c pre IH]; intros s o1 H.
  - cbn in H. injection H as <- <-. cbn [app].
    destruct (_rolling_strategy dict_repr depth op_state fn_name fn s st rest kwargs)
      as [s2 [o2 r2]]. reflexivity.
  - cbn [_rolling_strategy app] in H |- *.
    destruct (env_get (op_env fn_name st c) "fab_host") as [host|e]; [|discriminate].
    destruct (_try_run_operation dict_repr depth op_state fn s host (client_of c)
                (op_env fn_name st c) kwargs) as [s1' [o1' [u|e]]]; [|discriminate].
    destruct (_rolling_strategy dict_repr depth op_state fn_name fn s1' st pre kwargs)
      as [s2 [o2 r2]] eqn:E.
    injection H as -> <- ->. rewrite (IH s1' o2 E).
    destruct (_rolling_strategy dict_repr depth op_state fn_name fn s1 st rest kwargs)
      as [s3 [o3 r3]]. rewrite app_assoc. reflexivity.
Qed.

End RollingLemmas.

Lemma rolling_order (dict_repr : gmap string string -> string) (depth : nat) (op_state : Type)
    (fn_name : string) (fn : op_state -> pyval -> option nat -> Env -> Env -> op_state * op_outcome)
    (st : store) (kwargs : Env) (conns : list hconn) :
  forall s s' o r,
  _rolling_strategy dict_repr depth op_state fn_name fn s st conns kwargs = (s', (o, r)) ->
  (exists rest, conn_hosts fn_name st conns = (invocations o ++ rest)%list)
  /\ (r = Ok tt -> invocations o = conn_hosts fn_name st conns).
Proof.
  induction conns as [|c conns IH]; intros s s' o r H.
  - cbn in H. injection H as <- <- <-. split; [exists []|]; reflexivity.
  - cbn [_rolling_strategy] in H. unfold env_get in H. unfold conn_hosts. cbn [omap list_omap].
    fold (conn_hosts fn_name st conns).
    destruct (op_env fn_name st c !! "fab_host") as [host|] eqn:Eh.
    + pose proof (try_run_invocations dict_repr depth op_state fn s host (client_of c)
        (op_env fn_name st c) kwargs) as Hi.
      destruct (_try_run_operation dict_repr depth op_state fn s host (client_of c)
                  (op_env fn_name st c) kwargs) as [s1 [o1 [u|e]]]; cbn in Hi.
      * destruct (_rolling_strategy dict_repr depth op_state fn_name fn s1 st conns kwargs)
          as [s2 [o2 r2]] eqn:Er.
        injection H as <- <- <-. destruct (IH _ _ _ _ Er) as [[rest Hr] Hok].
        rewrite invocations_app, Hi. split.
        -- exists rest. rewrite Hr. reflexivity.
        -- intros ->. rewrite Hok by reflexivity. reflexivity.
      * injection H as <- <- <-. rewrite Hi. split; [|discriminate].
        exists (conn_hosts fn_name st conns). reflexivity.
    + injection H as <- <- <-. split; [|discriminate].
      exists (conn_hosts fn_name st conns). reflexivity.
Qed.

(** C2: under [_rolling_strategy] the hosts invoked are, in order, a prefix
    of the connections' hosts (all of them when the run returns), each
    invocation's outcome going through [_fail] before the next host; and
    when the policy resolves to abort and the operation fails or raises on
    the host of connection [c], the run raises right there: no connection
    after [c] is invoked.  The spec's [A, B, C] example holds. *)
Theorem rolling_strategy_fail_fast :
  (forall (dict_repr : gmap string string -> string) (depth : nat) (op_state : Type)
          (fn_name : string)
          (fn : op_state -> pyval -> option nat -> Env -> Env -> op_state * op_outcome)
          (s s' : op_state) (st : store) (conns : list hconn) (kwargs : Env)
          (o : list event) (r : res unit),
     _rolling_strategy dict_repr depth op_state fn_name fn s st conns kwargs = (s', (o, r)) ->
     (exists rest, conn_hosts fn_name st conns = (invocations o ++ rest)%list)
     /\ (r = Ok tt -> invocations o = conn_hosts fn_name st conns))
  /\ (forall (dict_repr : gmap string string -> string) (depth : nat) (op_state : Type)
          (fn_name : string)
          (fn : op_state -> pyval -> option nat -> Env -> Env -> op_state * op_outcome)
          (s s1 s2 : op_state) (st : store) (pre post : list hconn) (c : hconn)
          (kwargs : Env) (o1 : list event) (h : pyval) (out : op_outcome) (prefix : string),
     _rolling_strategy dict_repr depth op_state fn_name fn s st pre kwargs = (s1, (o1, Ok tt)) ->
     op_env fn_name st c !! "fab_host" = Some h ->
     fn s1 h (client_of c) (op_env fn_name st c) kwargs = (s2, out) ->
     failing out = true ->
     fail_code kwargs (op_env fn_name st c) = Ok (3, prefix) ->
     exists o2 e,
       _rolling_strategy dict_repr depth op_state fn_name fn s st (pre ++ c :: post) kwargs
         = (s2, ((o1 ++ o2)%list, Err e))
       /\ invocations o2 = [h])
  /\ (forall (dict_repr : gmap string string -> string) (d : nat),
     _rolling_strategy dict_repr (S (S d)) unit "run" (op_fails_on "B") tt run_store
       (run_conns ++ [mk_conn "C" 22 "alice" 2]) ∅
     = (tt, ([Invoke (PStr "A") None; Invoke (PStr "B") None;
              Print "Error: The run operation failed on B."], Err (SystemExit 1)))).
Proof.
  split; [|split].
  - intros dict_repr depth op_state fn_name fn s s' st conns kwargs o r H.
    exact (rolling_order dict_repr depth op_state fn_name fn st kwargs conns s s' o r H).
  - intros dict_repr depth op_state fn_name fn s s1 s2 st pre post c kwargs o1 h out prefix
      Hpre Hh Hfn Hf Hc.
    rewrite (rolling_app dict_repr depth op_state fn_name fn s s1 st pre (c :: post) kwargs o1 Hpre).
    cbn [_rolling_strategy]. unfold env_get. rewrite Hh.
    destruct (try_run_abort dict_repr depth op_state fn s1 s2 h (client_of c)
                (op_env fn_name st c) kwargs out prefix Hfn Hf Hc) as [o [e Ht]].
    pose proof (try_run_invocations dict_repr depth op_state fn s1 h (client_of c)
                  (op_env fn_name st c) kwargs) as Hi.
    rewrite Ht in Hi |- *. cbn in Hi. exists o, e. split; [reflexivity | exact Hi].
  - intros dict_repr d. vm_compute. reflexivity.
Qed.

Lemma rolling_strategy_fail_fast_witness :
  exists o2 e,
    _rolling_strategy some_dict_repr 10 unit "run" (op_fails_on "B") tt run_store
      ([mk_conn "A" 22 "alice" 0] ++ mk_conn "B" 22 "alice" 1 :: [mk_conn "C" 22 "alice" 2]) ∅
    = (tt, (([Invoke (PStr "A") None] ++ o2)%list, Err e))
    /\ invocations o2 = [PStr "B"].
Proof.
  destruct rolling_strategy_fail_fast as [_ [H _]].
  apply (H some_dict_repr 10 unit "run" (op_fails_on "B") tt tt tt run_store
           [mk_conn "A" 22 "alice" 0] [mk_conn "C" 22 "alice" 2] (mk_conn "B" 22 "alice" 1)
           ∅ [Invoke (PStr "A") None] (PStr "B") (Returned (PBool false)) "Error: ");
    vm_compute; reflexivity.
Defined.

(** ** C8: the password cache *)

Lemma password_loop_input (dict_repr : gmap string string -> string) (depth : nat)
    (ssh_connect : pyval -> pyval -> pyval -> pyval -> pyval -> pyval -> res unit) :
  forall inputs env evs pw rest,
  password_loop dict_repr depth ssh_connect env inputs = (evs, Ok (pw, rest)) ->
  In (Some pw) inputs /\ exists pr, In (Prompt pr) evs.
Proof.
  induction inputs as [|i inputs IH]; intros env evs pw rest H;
    cbn [password_loop] in H;
    destruct (lazy_fmt dict_repr depth env PASS_PROMPT) as [prompt|[]]; cbn in H;
    try discriminate.
  destruct i as [password|]; cbn in H; [|discriminate].
  destruct (_do_connect ssh_connect (<["fab_password" := PStr password]> env)) as [u|[]];
    cbn in H; try discriminate.
  - injection H as <- <- <-. split; [left; reflexivity|]. exists prompt. left. reflexivity.
  - destruct (password_loop dict_repr depth ssh_connect _ inputs) as [evs' [[pw' rest']|e]] eqn:Hr;
      cbn in H; [|discriminate].
    injection H as <- <- <-. destruct (IH _ _ _ _ Hr) as [Hin _].
    split; [right; exact Hin|]. exists prompt. left. reflexivity.
Qed.

(** C8: when the first transport attempt of [connect] fails with an
    authentication or SSH error and the prompt loop then succeeds, the
    password accepted is one the user typed at a prompt, it is written into
    the connection's host-local layer and into the user-local layer of its
    user, and every connection of the same user with no host-local
    [fab_password] sees it in its merged environment; the global layer is
    untouched.  A connection whose transport accepts its merged environment
    connects without any prompt or output. *)
Theorem connect_caches_password :
  (forall (dict_repr : gmap string string -> string) (depth : nat)
          (ssh_connect : pyval -> pyval -> pyval -> pyval -> pyval -> pyval -> res unit)
          (st st' : store) (c c' : hconn) (inputs rest : list (option string))
          (evs : list event),
     (_do_connect ssh_connect (conn_env st c) = Err AuthenticationException
      \/ _do_connect ssh_connect (conn_env st c) = Err SSHException) ->
     connect dict_repr depth ssh_connect st c inputs = (evs, Ok (st', c', rest)) ->
     exists pw,
       In (Some pw) inputs /\ (exists pr, In (Prompt pr) evs)
       /\ hc_host_env c' !! "fab_password" = Some (PStr pw)
       /\ user_env st' c' !! "fab_password" = Some (PStr pw)
       /\ hc_user c' = hc_user c
       /\ st_global st' = st_global st
       /\ (forall c2 : hconn, hc_user c2 = hc_user c ->
             hc_host_env c2 !! "fab_password" = None ->
             conn_env st' c2 !! "fab_password" = Some (PStr pw)))
  /\ (forall (dict_repr : gmap string string -> string) (depth : nat)
          (ssh_connect : pyval -> pyval -> pyval -> pyval -> pyval -> pyval -> res unit)
          (st : store) (c : hconn) (inputs : list (option string)),
     is_Some (conn_env st c !! "fab_new_host_key") ->
     _do_connect ssh_connect (conn_env st c) = Ok tt ->
     connect dict_repr depth ssh_connect st c inputs =
       ([], Ok (st, {| hc_user := hc_user c; hc_host_env := hc_host_env c;
                       hc_session := hc_session c; hc_connected := true |}, inputs))).
Proof.
  split.
  - intros dict_repr depth ssh_connect st st' c c' inputs rest evs Hfirst H.
    unfold connect in H.
    destruct (env_get (conn_env st c) "fab_new_host_key") as [k|e]; cbn in H; [|discriminate].
    destruct Hfirst as [E|E]; rewrite E in H;
    destruct (password_loop dict_repr depth ssh_connect _ inputs) as [evs1 [[pw rest1]|e]] eqn:Hp;
      cbn in H; try discriminate;
    injection H as <- <- <- <-;
    destruct (password_loop_input dict_repr depth ssh_connect _ _ _ _ _ Hp) as [Hin [pr Hpr]];
    exists pw; (split; [exact Hin|]); (split; [exists pr; rewrite app_nil_r; exact Hpr|]);
    unfold conn_env, get_env, dict_update, user_env, set_password;
    cbn [hc_host_env hc_user st_global st_users];
    (split; [apply lookup_insert_eq|]);
    (split; [rewrite lookup_insert_eq; cbn [default]; apply lookup_insert_eq|]);
    (split; [reflexivity|]); (split; [reflexivity|]);
    intros c2 Hu Hn; rewrite Hu, lookup_insert_eq; cbn [default from_option id];
    rewrite !lookup_union, Hn, lookup_insert_eq;
    destruct (st_global st !! "fab_password"); reflexivity.
  - intros dict_repr depth ssh_connect st c inputs [k Hk] Hok. unfold connect, env_get.
    rewrite Hk, Hok. reflexivity.
Qed.

Lemma connect_caches_password_witness :
  match connect some_dict_repr 10 (ssh_accepts "s3cret") run_store (mk_conn "A" 22 "alice" 0)
          [Some "wrong"; Some "s3cret"] with
  | (evs, Ok (st', c', rest)) =>
      exists pw, conn_env st' (mk_conn "B" 22 "alice" 1) !! "fab_password" = Some (PStr pw)
  | _ => False
  end
  /\ connect some_dict_repr 10 (ssh_accepts "s3cret")
       {| st_global := ENV0 "alice" "ts";
          st_users := {["alice" := <["fab_password" := PStr "s3cret"]> {["fab_user" := PStr "alice"]}]} |}
       (mk_conn "B" 22 "alice" 1) []
     = ([], Ok ({| st_global := ENV0 "alice" "ts";
                   st_users := {["alice" := <["fab_password" := PStr "s3cret"]>
                                              {["fab_user" := PStr "alice"]}]} |},
                {| hc_user := "alice"; hc_host_env := hc_host_env (mk_conn "B" 22 "alice" 1);
                   hc_session := 1; hc_connected := true |}, [])).
Proof.
  destruct connect_caches_password as [H1 H2]. split.
  - destruct (connect some_dict_repr 10 (ssh_accepts "s3cret") run_store (mk_conn "A" 22 "alice" 0)
                [Some "wrong"; Some "s3cret"]) as [evs [[[st' c'] rest]|e]] eqn:E.
    + assert (Hd : _do_connect (ssh_accepts "s3cret") (conn_env run_store (mk_conn "A" 22 "alice" 0))
                   = Err AuthenticationException) by (vm_compute; reflexivity).
      destruct (H1 _ _ _ _ _ _ _ _ _ _ (or_introl Hd) E) as (pw & _ & _ & _ & _ & _ & _ & Hsib).
      exists pw. apply Hsib; reflexivity.
    + vm_compute in E. discriminate.
  - apply H2; vm_compute; [eexists|]; reflexivity.
Defined.

(** ** Lemmas on the command lines of [run] and [sudo] *)

Lemma concat_map_app (f : ascii -> string) (s t : string) :
  concat_map f (s ++ t) = (concat_map f s ++ concat_map f t)%string.
Proof.
  induction s as [|c s IH]; [reflexivity|]. cbn [String.append concat_map].
  rewrite IH. apply string_app_assoc.
Qed.

Lemma replace_char_app (o : ascii) (n s t : string) :
  replace_char o n (s ++ t) = (replace_char o n s ++ replace_char o n t)%string.
Proof. apply concat_map_app. Qed.

Lemma replace_char_absent (o : ascii) (n s : string) :
  str_has o s = false -> replace_char o n s = s.
Proof.
  induction s as [|c s IH]; [reflexivity|]. cbn [str_has]. intros H.
  apply orb_false_iff in H as [Hc Hs]. unfold replace_char. cbn [concat_map].
  rewrite Ascii.eqb_sym, Hc. fold (replace_char o n s). rewrite IH by exact Hs.
  reflexivity.
Qed.

Lemma fmt_loop1_no_pct (s : string) :
  forall n a, String.length s <= n -> str_has "%" s = false -> fmt_loop1 n a s = Ok (s, a).
Proof.
  induction s as [|c s IH]; intros n a Hl H.
  - destruct n; reflexivity.
  - cbn [String.length] in Hl. cbn [str_has] in H.
    apply orb_false_iff in H as [Hc Hs].
    destruct n as [|n]; [lia|]. cbn [fmt_loop1].
    rewrite Ascii.eqb_sym, Hc. rewrite (IH n a) by (auto; lia). reflexivity.
Qed.

Lemma fmt_loop1_app_plain (p t : string) :
  forall n a, str_has "%" p = false ->
  fmt_loop1 (String.length p + n) a (p ++ t) =
    ('(r, a') ← fmt_loop1 n a t; Ok (p ++ r, a')).
Proof.
  induction p as [|c p IH]; intros n a Hp; cbn [String.length String.append plus].
  - destruct (fmt_loop1 n a t) as [[r a']|e]; reflexivity.
  - cbn [str_has] in Hp. apply orb_false_iff in Hp as [Hc Hp].
    cbn [fmt_loop1]. rewrite Ascii.eqb_sym, Hc, IH by exact Hp.
    destruct (fmt_loop1 n a t) as [[r a']|e]; reflexivity.
Qed.

Lemma fmt_loop1_pct_step (f : nat) (a : argst) (s : string) :
  fmt_loop1 (S f) a (String "%" s) =
    match s with
    | String "(" _ => Err TypeError
    | _ =>
        '(out, a', rest) ← format_spec (fun _ => "") ∅ a s;
        '(r, a'') ← fmt_loop1 f a' rest; Ok (out ++ r, a'')
    end.
Proof. reflexivity. Qed.

(** [%s] takes the single argument as it is. *)
Lemma format_spec_s (d : gmap string string -> string) (env : gmap string string) (x q : string) :
  format_spec d env {| a_src := ArgVal x; a_used := false |} (String "s" q) =
    Ok (x, {| a_src := ArgVal x; a_used := true |}, q).
Proof. reflexivity. Qed.

(** A template with one [%s] and no other [%]. *)
Lemma py_format1_template (p q x : string) :
  str_has "%" p = false -> str_has "%" q = false ->
  py_format1 (p ++ "%s" ++ q) x = Ok (p ++ x ++ q).
Proof.
  intros Hp Hq. unfold py_format1. rewrite string_length_app.
  rewrite fmt_loop1_app_plain by exact Hp.
  cbn [String.append String.length]. rewrite fmt_loop1_pct_step.
  cbv beta iota. rewrite format_spec_s. cbn [mbind res_bind].
  rewrite fmt_loop1_no_pct by (auto; lia). reflexivity.
Qed.

(** A template without any [%] leaves the argument unconverted. *)
Lemma py_format1_no_pct (p x : string) :
  str_has "%" p = false -> py_format1 p x = Err TypeError.
Proof.
  intros Hp. unfold py_format1. rewrite fmt_loop1_no_pct by (auto; lia). reflexivity.
Qed.

Lemma escape_app (s t : string) :
  _escape_bash_specialchars (s ++ t) =
    (_escape_bash_specialchars s ++ _escape_bash_specialchars t)%string.
Proof. apply replace_char_app. Qed.

(** X1: [_escape_bash_specialchars] loses nothing: turning each [\$] of
    its result back into [$] gives the original command, so two different
    commands never escape to the same text. *)
Theorem escape_bash_specialchars_roundtrip (cmd : string) :
  unescape_dollar (_escape_bash_specialchars cmd) = cmd.
Proof.
  induction cmd as [|c s IH]; [reflexivity|].
  unfold _escape_bash_specialchars, replace_char. cbn [concat_map].
  fold (replace_char "$" "\$" s). fold (_escape_bash_specialchars s).
  destruct (Ascii.eqb c "$") eqn:E.
  - apply Ascii.eqb_eq in E. subst c. cbn. rewrite IH. reflexivity.
  - cbn [String.append]. cbn [unescape_dollar].
    destruct (Ascii.eqb c "\") eqn:B.
    + apply Ascii.eqb_eq in B. subst c.
      destruct s as [|d s'].
      * reflexivity.
      * unfold _escape_bash_specialchars, replace_char in *. cbn [concat_map] in *.
        destruct (Ascii.eqb d "$") eqn:D.
        -- cbn [String.append]. cbv [Ascii.eqb Bool.eqb]. f_equal. exact IH.
        -- cbn [String.append]. rewrite D. f_equal. exact IH.
    + f_equal. exact IH.
Qed.

(** X2: when [fab_shell] is a template [p%sq] with no other [%], [run]
    prints the lazily formatted command [c] and executes
    [p + c.replace('"', '\\"') + q] with every [$] escaped, in the template
    as in the command. *)
Theorem run_command_shell_template (dict_repr : gmap string string -> string) (d : nat)
    (env : Env) (cmd c p q : string) :
  lazy_fmt dict_repr d env cmd = Ok c ->
  env !! "fab_shell" = Some (PStr (p ++ "%s" ++ q)) ->
  str_has "%" p = false -> str_has "%" q = false ->
  run_command dict_repr d env cmd =
    Ok (c, (_escape_bash_specialchars p ++ _escape_bash_specialchars (escape_quotes c)
            ++ _escape_bash_specialchars q)%string).
Proof.
  intros Hc Hs Hp Hq. unfold run_command. rewrite Hc. cbn [mbind res_bind].
  unfold env_get. rewrite Hs. cbn [mbind res_bind pct_str].
  rewrite py_format1_template by assumption. cbn [mbind res_bind].
  rewrite !escape_app. reflexivity.
Qed.

Lemma run_command_shell_template_witness :
  lazy_fmt some_dict_repr 1 (ENV0 "alice" "ts") "echo $HOME > out" = Ok "echo $HOME > out"
  /\ run_command some_dict_repr 1 (ENV0 "alice" "ts") "echo $HOME > out" =
       Ok ("echo $HOME > out",
           (_escape_bash_specialchars ("/bin/bash -l -c " ++ DQ)
            ++ _escape_bash_specialchars (escape_quotes "echo $HOME > out")
            ++ _escape_bash_specialchars DQ)%string).
Proof.
  assert (H : lazy_fmt some_dict_repr 1 (ENV0 "alice" "ts") "echo $HOME > out"
              = Ok "echo $HOME > out") by (vm_compute; reflexivity).
  split; [exact H|].
  apply (run_command_shell_template some_dict_repr 1 (ENV0 "alice" "ts")
           "echo $HOME > out" "echo $HOME > out" ("/bin/bash -l -c " ++ DQ) DQ H);
    vm_compute; reflexivity.
Defined.

(** X3: [run] fails before running anything when [fab_shell] cannot take
    the command: [KeyError] when it is unset, [TypeError] when it is a
    string without any [%] (the command is left unconverted) or not a
    string at all. *)
Theorem run_command_bad_shell (dict_repr : gmap string string -> string) (d : nat)
    (env : Env) (cmd c : string) :
  lazy_fmt dict_repr d env cmd = Ok c ->
  (env !! "fab_shell" = None -> run_command dict_repr d env cmd = Err KeyError)
  /\ (forall p, env !! "fab_shell" = Some (PStr p) -> str_has "%" p = false ->
        run_command dict_repr d env cmd = Err TypeError)
  /\ (forall v, env !! "fab_shell" = Some v -> (forall p, v <> PStr p) ->
        run_command dict_repr d env cmd = Err TypeError).
Proof.
  intros Hc. unfold run_command, env_get. rewrite Hc. cbn [mbind res_bind].
  split; [|split].
  - intros Hs. rewrite Hs. reflexivity.
  - intros p Hs Hp. rewrite Hs. cbn [mbind res_bind pct_str].
    rewrite py_format1_no_pct by exact Hp. reflexivity.
  - intros v Hs Hv. rewrite Hs. cbn [mbind res_bind].
    destruct v; try reflexivity. exfalso. exact (Hv s eq_refl).
Qed.

Lemma run_command_bad_shell_witness :
  lazy_fmt some_dict_repr 1 (<["fab_shell" := PStr "/bin/sh"]> (ENV0 "alice" "ts")) "ls" = Ok "ls"
  /\ run_command some_dict_repr 1 (<["fab_shell" := PStr "/bin/sh"]> (ENV0 "alice" "ts")) "ls"
     = Err TypeError.
Proof.
  assert (H : lazy_fmt some_dict_repr 1 (<["fab_shell" := PStr "/bin/sh"]> (ENV0 "alice" "ts")) "ls"
              = Ok "ls") by (vm_compute; reflexivity).
  split; [exact H|].
  destruct (run_command_bad_shell some_dict_repr 1
              (<["fab_shell" := PStr "/bin/sh"]> (ENV0 "alice" "ts")) "ls" "ls" H)
    as [_ [H2 _]].
  apply (H2 "/bin/sh"); vm_compute; reflexivity.
Defined.

(** X4: with a [p%sq] [fab_shell], [sudo] executes
    [p + sudo_cmd + c.replace('"', '\\"') + q] (escaped), where [sudo_cmd]
    is ["sudo -S "] exactly when [fab_password] is true, and then writes
    the password to stdin; it prints that real command when
    [fab_print_real_sudo] is true and the formatted [c] otherwise. *)
Theorem sudo_command_shape (dict_repr : gmap string string -> string) (d : nat)
    (env : Env) (cmd c p q : string) (pw pr : pyval) :
  lazy_fmt dict_repr d env cmd = Ok c ->
  env !! "fab_shell" = Some (PStr (p ++ "%s" ++ q)) ->
  str_has "%" p = false -> str_has "%" q = false ->
  env !! "fab_password" = Some pw -> env !! "fab_print_real_sudo" = Some pr ->
  let real_cmd := (p ++ (if truthy pw then "sudo -S " else "sudo ") ++ escape_quotes c ++ q)%string in
  sudo_command dict_repr d env cmd =
    Ok (if truthy pr then real_cmd else c, _escape_bash_specialchars real_cmd, truthy pw).
Proof.
  intros Hc Hs Hp Hq Hpw Hpr real_cmd. unfold sudo_command, env_get.
  rewrite Hc. cbn [mbind res_bind]. rewrite Hpw. cbn [mbind res_bind].
  rewrite Hs. cbn [mbind res_bind pct_str].
  rewrite py_format1_template by assumption. cbn [mbind res_bind].
  rewrite Hpr. cbn [mbind res_bind].
  assert (Hne : String.eqb (p ++ ((if truthy pw then "sudo -S " else "sudo ") ++ escape_quotes c)
                              ++ q) "" = false).
  { destruct p; [destruct (truthy pw)|]; reflexivity. }
  rewrite Hne, andb_true_r. subst real_cmd. rewrite <- string_app_assoc. reflexivity.
Qed.

Lemma sudo_command_shape_witness :
  lazy_fmt some_dict_repr 1 (<["fab_password" := PStr "pw"]> (ENV0 "alice" "ts")) "apt-get update" = Ok "apt-get update"
  /\ sudo_command some_dict_repr 1 (<["fab_password" := PStr "pw"]> (ENV0 "alice" "ts")) "apt-get update" =
       Ok ("apt-get update",
           _escape_bash_specialchars ("/bin/bash -l -c " ++ DQ ++ "sudo -S apt-get update" ++ DQ),
           true).
Proof.
  assert (H : lazy_fmt some_dict_repr 1 (<["fab_password" := PStr "pw"]> (ENV0 "alice" "ts")) "apt-get update" = Ok "apt-get update")
    by (vm_compute; reflexivity).
  split; [exact H|].
  refine (eq_trans (sudo_command_shape some_dict_repr 1 (<["fab_password" := PStr "pw"]> (ENV0 "alice" "ts")) "apt-get update" "apt-get update"
                      ("/bin/bash -l -c " ++ DQ) DQ (PStr "pw") (PBool false)
                      H _ _ _ _ _) _);
    vm_compute; reflexivity.
Defined.

(** ** Lemmas on [_indent] *)

Lemma line_pieces_nonempty (s : string) : line_pieces s <> [].
Proof.
  destruct s as [|c s]; [discriminate|]. cbn [line_pieces].
  destruct (Ascii.eqb c CR); [destruct s as [|d s]; [|destruct (Ascii.eqb d LF)]|];
    try discriminate.
  destruct (Ascii.eqb c LF); [discriminate|]. destruct (line_pieces s); discriminate.
Qed.


Lemma line_pieces_app (l rest : string) :
  no_break l ->
  line_pieces (l ++ rest) =
    match line_pieces rest with p :: ps => (l ++ p)%string :: ps | [] => [l] end.
Proof.
  induction l as [|c l IH]; intros [Hlf Hcr].
  - cbn [String.append]. destruct (line_pieces rest) eqn:E; [|reflexivity].
    exfalso. exact (line_pieces_nonempty _ E).
  - cbn [str_has] in Hlf, Hcr.
    apply orb_false_iff in Hlf as [Hc1 Hl1]. apply orb_false_iff in Hcr as [Hc2 Hl2].
    cbn [String.append line_pieces]. rewrite Ascii.eqb_sym, Hc2, Ascii.eqb_sym, Hc1.
    rewrite IH by (split; assumption).
    destruct (line_pieces rest); reflexivity.
Qed.


Lemma line_pieces_join (ls : list string) :
  ls <> [] -> Forall no_break ls -> line_pieces (join (String LF EmptyString) ls) = ls.
Proof.
  induction ls as [|l ls IH]; intros Hne Hf; [congruence|].
  inversion Hf as [|? ? Hl Hls]; subst.
  destruct ls as [|l' ls'].
  - cbn [join]. rewrite <- (string_app_nil_r l) at 1. rewrite line_pieces_app by exact Hl.
    cbn. rewrite string_app_nil_r. reflexivity.
  - change (join (String LF EmptyString) (l :: l' :: ls'))
      with (l ++ String LF EmptyString ++ join (String LF EmptyString) (l' :: ls'))%string.
    rewrite line_pieces_app by exact Hl. cbn [String.append line_pieces].
    replace (Ascii.eqb LF CR) with false by reflexivity.
    replace (Ascii.eqb LF LF) with true by reflexivity.
    rewrite IH by (discriminate || assumption). rewrite string_app_nil_r. reflexivity.
Qed.

(** X5: [_indent] puts four spaces before each line of a text made of
    break-free lines joined by [\n]; a text ending in a line break loses
    it. *)
Theorem indent_lines (ls : list string) :
  Forall no_break ls -> last ls <> Some "" ->
  _indent (join (String LF EmptyString) ls) =
    join (String LF EmptyString) (map (fun line => "    " ++ line) ls).
Proof.
  intros Hf Hl. unfold _indent, splitlines.
  destruct ls as [|l ls]; [reflexivity|].
  rewrite line_pieces_join by (discriminate || assumption).
  destruct (last (l :: ls)) as [s|] eqn:E; [|reflexivity].
  destruct s; [congruence|reflexivity].
Qed.

Lemma indent_lines_witness :
  (Forall no_break ["make"; "make install"] /\ last ["make"; "make install"] <> Some "")
  /\ _indent (join (String LF EmptyString) ["make"; "make install"]) =
       join (String LF EmptyString) (map (fun line => "    " ++ line) ["make"; "make install"]).
Proof.
  assert (H : Forall no_break ["make"; "make install"] /\ last ["make"; "make install"] <> Some "").
  { split; [repeat constructor|discriminate]. }
  split; [exact H|]. destruct H as [H1 H2]. exact (indent_lines _ H1 H2).
Defined.

(** ** Lemmas on [_confirm_proceed] *)

Lemma yes_answer (answer : string) :
  negb (String.eqb answer "") && is_substring answer "yY" =
    bool_decide (answer ∈ ["y"; "Y"; "yY"]).
Proof.
  destruct answer as [|c [|d [|e r]]];
    cbn [String.eqb negb andb is_substring String.prefix];
    repeat (destruct (ascii_dec _ _); subst);
    first [ vm_compute; reflexivity
          | cbn; symmetry; apply bool_decide_eq_false; intros Hin;
            repeat (apply elem_of_cons in Hin as [Hin|Hin]; [injection Hin; intros; congruence|]);
            apply elem_of_nil in Hin; exact Hin ].
Qed.

(** X6: without a [confirm] keyword argument [_confirm_proceed] asks
    nothing and proceeds; with one, it asks once, with the confirm text
    lazily formatted against the global [ENV], and proceeds exactly when
    the answer is [y], [Y] or [yY] (the non-empty substrings of ['yY']). *)
Theorem confirm_proceed_answers (dict_repr : gmap string string -> string) (d : nat)
    (global_env : Env) (exec_type : string) (host : pyval) (kwargs : Env)
    (answer text q : string) :
  _confirm_proceed dict_repr d global_env exec_type host (delete "confirm" kwargs) answer
    = ([], Ok true)
  /\ (kwargs !! "confirm" = Some (PStr text) -> lazy_fmt dict_repr d global_env text = Ok q ->
      _confirm_proceed dict_repr d global_env exec_type host kwargs answer =
        ([Prompt ("Confirm " ++ exec_type ++ " for host " ++ py_str host ++ ": " ++ q ++ " [yN] ")],
         Ok (bool_decide (answer ∈ ["y"; "Y"; "yY"])))).
Proof.
  split.
  - unfold _confirm_proceed. rewrite lookup_delete_eq. reflexivity.
  - intros Hk Hq. unfold _confirm_proceed. rewrite Hk. cbn [lazy_fmt_value].
    rewrite Hq. cbn. rewrite yes_answer. reflexivity.
Qed.

Lemma confirm_proceed_answers_witness :
  ({["confirm" := PStr "Really?"]} : Env) !! "confirm" = Some (PStr "Really?")
  /\ lazy_fmt some_dict_repr 1 (ENV0 "alice" "ts") "Really?" = Ok "Really?"
  /\ _confirm_proceed some_dict_repr 1 (ENV0 "alice" "ts") "run" (PStr "A")
       {["confirm" := PStr "Really?"]} "Y" =
     ([Prompt "Confirm run for host A: Really? [yN] "], Ok true).
Proof.
  assert (H1 : ({["confirm" := PStr "Really?"]} : Env) !! "confirm" = Some (PStr "Really?"))
    by reflexivity.
  assert (H2 : lazy_fmt some_dict_repr 1 (ENV0 "alice" "ts") "Really?" = Ok "Really?")
    by (vm_compute; reflexivity).
  split; [exact H1|]. split; [exact H2|].
  destruct (confirm_proceed_answers some_dict_repr 1 (ENV0 "alice" "ts") "run" (PStr "A")
              {["confirm" := PStr "Really?"]} "Y" "Really?" "Really?") as [_ H].
  rewrite (H H1 H2). reflexivity.
Defined.

(** ** Lemmas on the help texts *)

Lemma drop_blank_lines_all (ls : list string) :
  Forall (fun l => strip l = "") ls -> drop_blank_lines ls = [].
Proof.
  induction ls as [|l ls IH]; intros H; [reflexivity|].
  inversion H as [|? ? Hl Hls]; subst. cbn [drop_blank_lines]. rewrite Hl.
  exact (IH Hls).
Qed.

(** X7: a missing or empty docstring gets the default text
    ["* No help-text found."], indented; a non-empty docstring made only
    of blank lines gets ["No help message found"] instead. *)
Theorem print_help_for_defaults (name doc : string) :
  _print_help_for name None =
    [Print ("Help for '" ++ name ++ "':" ++ String LF EmptyString ++ "    * No help-text found.")]
  /\ _print_help_for name (Some "") = _print_help_for name None
  /\ (doc <> "" -> Forall (fun l => strip l = "") (splitlines doc) ->
      _print_help_for name (Some doc) = [Print ("No help message found for '" ++ name ++ "'.")]).
Proof.
  split; [reflexivity|]. split; [reflexivity|].
  intros Hd Hb. unfold _print_help_for.
  destruct (String.eqb doc "") eqn:E; [apply String.eqb_eq in E; congruence|].
  rewrite (drop_blank_lines_all (splitlines doc) Hb). reflexivity.
Qed.

Lemma print_help_for_defaults_witness :
  ("  " ++ String LF EmptyString ++ "   " <> "")%string
  /\ Forall (fun l => strip l = "") (splitlines ("  " ++ String LF EmptyString ++ "   "))
  /\ _print_help_for "deploy" (Some ("  " ++ String LF EmptyString ++ "   "))
     = [Print "No help message found for 'deploy'."].
Proof.
  assert (H1 : ("  " ++ String LF EmptyString ++ "   " <> "")%string) by discriminate.
  assert (H2 : Forall (fun l => strip l = "") (splitlines ("  " ++ String LF EmptyString ++ "   ")))
    by (vm_compute; repeat constructor).
  split; [exact H1|]. split; [exact H2|].
  destruct (print_help_for_defaults "deploy" ("  " ++ String LF EmptyString ++ "   ")) as [_ [_ H]].
  exact (H H1 H2).
Defined.

(** ** Lemmas on [_load_default_settings] *)

Lemma fold_insert_lookup (kvs : list (string * pyval)) :
  forall (env : Env) k,
  fold_left (fun e kv => <[fst kv := snd kv]> e) kvs env !! k =
    match last (List.filter (fun kv => String.eqb (fst kv) k) kvs) with
    | Some kv => Some (snd kv)
    | None => env !! k
    end.
Proof.
  induction kvs as [|[k' v'] kvs IH]; intros env k; [reflexivity|].
  cbn [fold_left List.filter fst snd]. rewrite IH.
  destruct (List.filter (fun kv => String.eqb (fst kv) k) kvs) as [|y l] eqn:F.
  - destruct (String.eqb k' k) eqn:E; cbn.
    + apply String.eqb_eq in E. subst. apply lookup_insert_eq.
    + apply String.eqb_neq in E. apply lookup_insert_ne. exact E.
  - assert (Hl : exists z, last (y :: l) = Some z).
    { destruct (last (y :: l)) eqn:L; [eauto|]. apply last_None in L. discriminate. }
    destruct Hl as [z Hz].
    destruct (String.eqb k' k); [change (last ((k', v') :: y :: l)) with (last (y :: l))|];
      rewrite Hz; reflexivity.
Qed.

Lemma load_settings_lookup (lines : list string) (env : Env) (k : string) :
  _load_default_settings (Some lines) env !! k =
    match last (List.filter (fun kv => String.eqb (fst kv) k)
                  (map setting_of_line (List.filter setting_line lines))) with
    | Some kv => Some (snd kv)
    | None => env !! k
    end.
Proof. apply fold_insert_lookup. Qed.

(** Whether a line of [~/.fabric] sets the key [k]. *)
Lemma sets_key_filter (post : list string) (k : string) :
  Forall (fun l => setting_line l = false \/ fst (setting_of_line l) <> k) post ->
  List.filter (fun kv => String.eqb (fst kv) k) (map setting_of_line (List.filter setting_line post))
    = [].
Proof.
  induction post as [|l post IH]; intros H; [reflexivity|].
  inversion H as [|? ? Hl Hpost]; subst. cbn [List.filter].
  destruct (setting_line l) eqn:S; [|exact (IH Hpost)].
  destruct Hl as [Hl|Hl]; [congruence|].
  cbn [map List.filter]. destruct (String.eqb (fst (setting_of_line l)) k) eqn:E.
  - apply String.eqb_eq in E. congruence.
  - exact (IH Hpost).
Qed.

Lemma filter_app_eq {A} (f : A -> bool) (l1 l2 : list A) :
  List.filter f (l1 ++ l2) = (List.filter f l1 ++ List.filter f l2)%list.
Proof. induction l1 as [|x l1 IH]; [reflexivity|]. cbn. rewrite IH. destruct (f x); reflexivity. Qed.

Lemma load_settings_line (env : Env) (pre post : list string) (l k : string) :
  setting_line l = true -> fst (setting_of_line l) = k ->
  Forall (fun l => setting_line l = false \/ fst (setting_of_line l) <> k) post ->
  _load_default_settings (Some (pre ++ l :: post)%list) env !! k = Some (snd (setting_of_line l)).
Proof.
  intros Hs Hk Hpost. rewrite load_settings_lookup.
  rewrite filter_app_eq. cbn [List.filter]. rewrite Hs.
  rewrite map_app. cbn [map]. rewrite filter_app_eq. cbn [List.filter].
  rewrite Hk, String.eqb_refl, (sets_key_filter post k Hpost).
  rewrite last_app. reflexivity.
Qed.

(** X8: after [_load_default_settings], a key keeps its [ENV] value when
    no setting line of [~/.fabric] names it, and otherwise has the
    stripped value of the last line that does; a missing file changes
    nothing. *)
Theorem load_settings_last_wins (env : Env) (pre post : list string) (l k : string) :
  _load_default_settings None env = env
  /\ (Forall (fun l => setting_line l = false \/ fst (setting_of_line l) <> k) pre ->
      _load_default_settings (Some pre) env !! k = env !! k)
  /\ (setting_line l = true -> fst (setting_of_line l) = k ->
      Forall (fun l => setting_line l = false \/ fst (setting_of_line l) <> k) post ->
      _load_default_settings (Some (pre ++ l :: post)%list) env !! k = Some (snd (setting_of_line l))).
Proof.
  split; [reflexivity|]. split.
  - intros H. rewrite load_settings_lookup, sets_key_filter by exact H. reflexivity.
  - apply load_settings_line.
Qed.

Lemma load_settings_last_wins_witness :
  (Forall (fun l => setting_line l = false \/ fst (setting_of_line l) <> "fab_mode")
     [text_line "fab_user = bob"]
   /\ setting_line (text_line "fab_user=carol") = true
   /\ fst (setting_of_line (text_line "fab_user=carol")) = "fab_user"
   /\ Forall (fun l => setting_line l = false \/ fst (setting_of_line l) <> "fab_user")
        [text_line "# fab_user = dave"])
  /\ _load_default_settings (Some [text_line "fab_user = bob"]) (ENV0 "alice" "ts")
       !! "fab_mode" = Some (PStr "rolling")
  /\ _load_default_settings
       (Some ([text_line "fab_user = bob"] ++
              (text_line "fab_user=carol") :: [text_line "# fab_user = dave"])%list)
       (ENV0 "alice" "ts") !! "fab_user" = Some (PStr "carol").
Proof.
  assert (H1 : Forall (fun l => setting_line l = false \/ fst (setting_of_line l) <> "fab_mode")
                 [text_line "fab_user = bob"])
    by (constructor; [right; vm_compute; discriminate|constructor]).
  assert (H2 : setting_line (text_line "fab_user=carol") = true) by reflexivity.
  assert (H3 : fst (setting_of_line (text_line "fab_user=carol")) = "fab_user")
    by (vm_compute; reflexivity).
  assert (H4 : Forall (fun l => setting_line l = false \/ fst (setting_of_line l) <> "fab_user")
                 [text_line "# fab_user = dave"])
    by (constructor; [left; reflexivity|constructor]).
  destruct (load_settings_last_wins (ENV0 "alice" "ts") [text_line "fab_user = bob"]
              [text_line "# fab_user = dave"]
              (text_line "fab_user=carol") "fab_user") as [_ [_ Hc]].
  destruct (load_settings_last_wins (ENV0 "alice" "ts") [text_line "fab_user = bob"]
              [] "" "fab_mode") as [_ [Hb _]].
  split; [tauto|]. split.
  - rewrite (Hb H1). reflexivity.
  - rewrite (Hc H2 H3 H4). vm_compute. reflexivity.
Defined.

Lemma lstrip_blank (l : string) :
  Forall (fun c => is_space c = true) (list_ascii_of_string l) -> lstrip l = "".
Proof.
  induction l as [|c l IH]; intros H; [reflexivity|].
  inversion H as [|? ? Hc Hl]; subst. cbn [lstrip]. rewrite Hc. exact (IH Hl).
Qed.

Lemma blank_no_sep (l : string) (sep : ascii) :
  is_space sep = false ->
  Forall (fun c => is_space c = true) (list_ascii_of_string l) -> str_has sep l = false.
Proof.
  intros Hs. induction l as [|c l IH]; intros H; [reflexivity|].
  inversion H as [|? ? Hc Hl]; subst. cbn [str_has]. rewrite IH by exact Hl.
  destruct (Ascii.eqb sep c) eqn:E; [|reflexivity].
  apply Ascii.eqb_eq in E. subst. congruence.
Qed.

(** X9: a line of [~/.fabric] that starts with [#] changes nothing, but a
    non-empty line of blanks is not skipped: it sets the empty key [""]
    to [""] (unless a later line sets that key). *)
Theorem load_settings_comments_blanks (env : Env) (pre post : list string) (l : string) :
  (String.prefix "#" l = true ->
   _load_default_settings (Some (pre ++ l :: post)%list) env =
     _load_default_settings (Some (pre ++ post)%list) env)
  /\ (l <> "" -> Forall (fun c => is_space c = true) (list_ascii_of_string l) ->
      Forall (fun l => setting_line l = false \/ fst (setting_of_line l) <> "") post ->
      _load_default_settings (Some (pre ++ l :: post)%list) env !! "" = Some (PStr "")).
Proof.
  split.
  - intros Hc. unfold _load_default_settings.
    rewrite !filter_app_eq. cbn [List.filter].
    unfold setting_line at 2. rewrite Hc, andb_false_r. reflexivity.
  - intros Hne Hb Hpost.
    assert (Hsl : setting_of_line l = ("", PStr "")).
    { unfold setting_of_line.
      rewrite partition_no_sep by (apply blank_no_sep; [reflexivity|exact Hb]).
      unfold strip. rewrite lstrip_blank by exact Hb. reflexivity. }
    assert (Hs : setting_line l = true).
    { unfold setting_line. destruct l as [|c l']; [congruence|].
      inversion Hb as [|? ? Hc _]; subst. cbn [String.eqb negb andb String.prefix].
      destruct (ascii_dec "#" c) as [E|E]; [subst; discriminate|reflexivity]. }
    rewrite (load_settings_line env pre post l "" Hs); [rewrite Hsl; reflexivity| |exact Hpost].
    rewrite Hsl. reflexivity.
Qed.

Lemma load_settings_comments_blanks_witness :
  (String.prefix "#" (text_line "# fab_user = dave") = true
   /\ text_line "" <> ""
   /\ Forall (fun c => is_space c = true) (list_ascii_of_string (text_line ""))
   /\ Forall (fun l => setting_line l = false \/ fst (setting_of_line l) <> "") [])
  /\ _load_default_settings (Some ([text_line "fab_user=bob"] ++ text_line "# fab_user = dave" :: [])%list)
       (ENV0 "alice" "ts")
     = _load_default_settings (Some ([text_line "fab_user=bob"] ++ [])%list) (ENV0 "alice" "ts")
  /\ _load_default_settings (Some ([text_line "fab_user=bob"] ++ text_line "" :: [])%list)
       (ENV0 "alice" "ts") !! "" = Some (PStr "").
Proof.
  assert (H1 : String.prefix "#" (text_line "# fab_user = dave") = true) by reflexivity.
  assert (H2 : text_line "" <> "") by discriminate.
  assert (H3 : Forall (fun c => is_space c = true) (list_ascii_of_string (text_line "")))
    by (constructor; [reflexivity|constructor]).
  assert (H4 : Forall (fun l => setting_line l = false \/ fst (setting_of_line l) <> "") [])
    by constructor.
  split; [tauto|]. split.
  - destruct (load_settings_comments_blanks (ENV0 "alice" "ts") [text_line "fab_user=bob"] []
                (text_line "# fab_user = dave")) as [H _].
    exact (H H1).
  - destruct (load_settings_comments_blanks (ENV0 "alice" "ts") [text_line "fab_user=bob"] []
                (text_line "")) as [_ H].
    exact (H H2 H3 H4).
Defined.

(** ** Lemmas on [_parse_args] *)

Lemma split_on_nonempty (sep : ascii) (s : string) : split_on sep s <> [].
Proof.
  destruct s as [|c s]; [discriminate|]. cbn [split_on].
  destruct (Ascii.eqb c sep); [discriminate|]. destruct (split_on sep s); discriminate.
Qed.

Lemma split_on_app (sep : ascii) (l rest : string) :
  str_has sep l = false ->
  split_on sep (l ++ rest) =
    match split_on sep rest with p :: ps => (l ++ p)%string :: ps | [] => [l] end.
Proof.
  induction l as [|c l IH]; intros H.
  - cbn [String.append]. destruct (split_on sep rest) eqn:E; [|reflexivity].
    exfalso. exact (split_on_nonempty _ _ E).
  - cbn [str_has] in H. apply orb_false_iff in H as [Hc Hl].
    cbn [String.append split_on]. rewrite Ascii.eqb_sym, Hc, IH by exact Hl.
    destruct (split_on sep rest); reflexivity.
Qed.

Lemma split_on_join (sep : ascii) (ls : list string) :
  ls <> [] -> Forall (fun l => str_has sep l = false) ls ->
  split_on sep (join (String sep EmptyString) ls) = ls.
Proof.
  induction ls as [|l ls IH]; intros Hne Hf; [congruence|].
  inversion Hf as [|? ? Hl Hls]; subst.
  destruct ls as [|l' ls'].
  - cbn [join]. rewrite <- (string_app_nil_r l) at 1. rewrite split_on_app by exact Hl.
    cbn. rewrite string_app_nil_r. reflexivity.
  - change (join (String sep EmptyString) (l :: l' :: ls'))
      with (l ++ String sep EmptyString ++ join (String sep EmptyString) (l' :: ls'))%string.
    rewrite split_on_app by exact Hl. cbn [String.append split_on].
    rewrite Ascii.eqb_refl, IH by (discriminate || assumption).
    rewrite string_app_nil_r. reflexivity.
Qed.

Lemma partition_parts (s : string) (sep : ascii) :
  let '(a, b, c) := partition s sep in s = (a ++ b ++ c)%string.
Proof.
  induction s as [|d s IH]; [reflexivity|]. cbn [partition].
  destruct (Ascii.eqb d sep) eqn:E.
  - apply Ascii.eqb_eq in E. subst. reflexivity.
  - destruct (partition s sep) as [[a b] c]. cbn [String.append]. rewrite <- IH. reflexivity.
Qed.

Lemma partition_value_no_pct (s : string) (sep : ascii) :
  str_has "%" s = false -> let '(_, _, v) := partition s sep in str_has "%" v = false.
Proof.
  intros H. pose proof (partition_parts s sep) as Hp.
  destruct (partition s sep) as [[a b] c]. subst s.
  rewrite !str_has_app in H. apply orb_false_iff in H as [_ H].
  apply orb_false_iff in H as [_ H]. exact H.
Qed.

Section ParseArgsLemmas.

Variable env_pct : string -> res string.
Hypothesis env_pct_plain : forall s, str_has "%" s = false -> env_pct s = Ok s.

Lemma parse_kvs_plain (kvs : list string) :
  forall m, Forall (fun kv => str_has "%" kv = false) kvs ->
  parse_kvs env_pct m kvs =
    Ok (fold_left (fun m kv => let '(k, _, v) := partition kv "=" in
                               <[k := if String.eqb v "" then k else v]> m) kvs m).
Proof.
  induction kvs as [|kv kvs IH]; intros m H; [reflexivity|].
  inversion H as [|? ? Hkv Hkvs]; subst.
  pose proof (partition_value_no_pct kv "=" Hkv) as Hv.
  cbn [parse_kvs fold_left]. destruct (partition kv "=") as [[k sep] v].
  rewrite (env_pct_plain v Hv). cbn [mbind res_bind]. exact (IH _ Hkvs).
Qed.

End ParseArgsLemmas.

(** X10: with [v % ENV] the identity on text without [%], [_parse_args]
    reads [name:kv1,kv2,...] as the command [name] (up to the first [:])
    with the arguments [k=v] split at the first [=] and set in order (a
    later duplicate wins); a [k] or [k=] without a value is set to [k]
    itself.  An argument without [:] is a command without arguments. *)
Theorem parse_cmd_arguments (env_pct : string -> res string)
    (Hplain : forall s, str_has "%" s = false -> env_pct s = Ok s)
    (name : string) (kvs : list string) :
  str_has ":" name = false ->
  (parse_cmd env_pct name = Ok (name, ∅))
  /\ (kvs <> [] -> Forall (fun kv => str_has "," kv = false /\ str_has "%" kv = false) kvs ->
      parse_cmd env_pct (name ++ String ":" (join "," kvs)) =
        Ok (name, fold_left (fun m kv => let '(k, _, v) := partition kv "=" in
                                         <[k := if String.eqb v "" then k else v]> m) kvs ∅)).
Proof.
  intros Hn. split.
  - unfold parse_cmd. rewrite Hn. reflexivity.
  - intros Hne Hf. unfold parse_cmd. rewrite str_has_sep.
    rewrite partition_first by exact Hn.
    rewrite split_on_join.
    + rewrite parse_kvs_plain; [reflexivity|exact Hplain|].
      eapply Forall_impl; [exact Hf|]. intros kv [_ H]. exact H.
    + exact Hne.
    + eapply Forall_impl; [exact Hf|]. intros kv [H _]. exact H.
Qed.

Lemma parse_cmd_arguments_witness :
  (forall s, str_has "%" s = false -> py_format some_dict_repr (py_str <$> ENV0 "alice" "ts") s = Ok s)
  /\ str_has ":" "deploy" = false
  /\ ["tag=v1"; "force"; "tag=v2"] <> []
  /\ Forall (fun kv => str_has "," kv = false /\ str_has "%" kv = false) ["tag=v1"; "force"; "tag=v2"]
  /\ parse_cmd (py_format some_dict_repr (py_str <$> ENV0 "alice" "ts"))
       ("deploy" ++ String ":" (join "," ["tag=v1"; "force"; "tag=v2"]))
     = Ok ("deploy", <["tag" := "v2"]> (<["force" := "force"]> (<["tag" := "v1"]> ∅))).
Proof.
  assert (H0 : forall s, str_has "%" s = false ->
                 py_format some_dict_repr (py_str <$> ENV0 "alice" "ts") s = Ok s)
    by (intros s Hs; apply py_format_no_pct; exact Hs).
  assert (H1 : str_has ":" "deploy" = false) by reflexivity.
  assert (H2 : ["tag=v1"; "force"; "tag=v2"] <> []) by discriminate.
  assert (H3 : Forall (fun kv => str_has "," kv = false /\ str_has "%" kv = false)
                 ["tag=v1"; "force"; "tag=v2"])
    by (repeat constructor).
  split; [exact H0|]. split; [exact H1|]. split; [exact H2|]. split; [exact H3|].
  destruct (parse_cmd_arguments _ H0 "deploy" ["tag=v1"; "force"; "tag=v2"] H1) as [_ H].
  rewrite (H H2 H3). reflexivity.
Defined.

(** ** [_check_fab_hosts] *)

(** X11: [_check_fab_hosts] exits with status 1 after three lines when
    [fab_hosts] is unset and after two lines when it is an empty list or
    string; a non-empty list passes silently.  [local_per_host] stops at
    this check, connections or not. *)
Theorem check_fab_hosts_cases (env : Env) (h : pyval) (hs : list pyval) :
  _check_fab_hosts (delete "fab_hosts" env) =
    ([Print "Fabric requires a fab_hosts variable.";
      Print "Please set it in your fabfile.";
      Print "Example: set(fab_hosts=['node1.com', 'node2.com'])"], Err (SystemExit 1))
  /\ _check_fab_hosts (<["fab_hosts" := PList []]> env) =
       ([Print "The fab_hosts list was empty.";
         Print "Please specify some hosts to connect to."], Err (SystemExit 1))
  /\ _check_fab_hosts (<["fab_hosts" := PStr ""]> env) =
       _check_fab_hosts (<["fab_hosts" := PList []]> env)
  /\ _check_fab_hosts (<["fab_hosts" := PList (h :: hs)]> env) = ([], Ok tt)
  /\ (forall dict_repr d subprocess_call users conns cmd kwargs,
        local_per_host dict_repr d subprocess_call
          {| st_global := delete "fab_hosts" env; st_users := users |} conns cmd kwargs =
        _check_fab_hosts (delete "fab_hosts" env)).
Proof.
  unfold _check_fab_hosts.
  rewrite lookup_delete_eq, !lookup_insert_eq. repeat split.
  intros. unfold local_per_host, _check_fab_hosts. cbn [st_global].
  rewrite lookup_delete_eq. reflexivity.
Qed.

(** ** Lemmas on [local_per_host] *)

Lemma match_token_not_dollar (c : ascii) (r : string) :
  c <> "$"%char -> match_token (String c r) = None.
Proof.
  intros H. unfold match_token.
  destruct c as [[] [] [] [] [] [] [] []]; try reflexivity; exfalso; apply H; reflexivity.
Qed.

Lemma has_token_app_plain (p t : string) :
  str_has "$" p = false -> has_token (p ++ t) = has_token t.
Proof.
  induction p as [|c p IH]; intros H; [reflexivity|].
  cbn [str_has] in H. apply orb_false_iff in H as [Hc Hp].
  cbn [String.append has_token]. rewrite match_token_not_dollar.
  - exact (IH Hp).
  - intros E. subst. discriminate.
Qed.

Lemma re_sub_app_plain (repl : string -> res string) (p t : string) :
  forall n, str_has "$" p = false ->
  re_sub repl (String.length p + n) (p ++ t) = (r ← re_sub repl n t; Ok (p ++ r)).
Proof.
  induction p as [|c p IH]; intros n H; cbn [String.length String.append plus].
  - destruct (re_sub repl n t); reflexivity.
  - cbn [str_has] in H. apply orb_false_iff in H as [Hc Hp].
    cbn [re_sub]. rewrite match_token_not_dollar by (intros E; subst; discriminate).
    rewrite IH by exact Hp. destruct (re_sub repl n t); reflexivity.
Qed.

Lemma lazy_format_S (dict_repr : gmap string string -> string) (d : nat)
    (env : gmap string string) (s : string) :
  lazy_format dict_repr (S d) env s =
    (s' ← py_format dict_repr env s;
     re_sub (fun var => match env !! var with
                        | Some v => v' ← py_format dict_repr env v; lazy_format dict_repr d env v'
                        | None => Ok ("$(" ++ var ++ ")")
                        end) (String.length s') s').
Proof. reflexivity. Qed.

(** The line [local_per_host] prints for a host. *)
Lemma lazy_format_host_line (dict_repr : gmap string string -> string) (d : nat)
    (env : gmap string string) (h cmd : string) :
  env !! "fab_host" = Some h ->
  str_has "%" h = false -> has_token h = false ->
  str_has "%" cmd = false -> has_token cmd = false ->
  lazy_format dict_repr (S (S d)) env ("[localhost/$(fab_host)] run: " ++ cmd) =
    Ok ("[localhost/" ++ h ++ "] run: " ++ cmd).
Proof.
  intros Hh Hhp Hht Hcp Hct. rewrite lazy_format_S.
  rewrite py_format_no_pct by (rewrite str_has_app; rewrite Hcp; reflexivity).
  cbn [mbind res_bind].
  change ("[localhost/$(fab_host)] run: " ++ cmd)%string
    with ("[localhost/" ++ ("$(fab_host)" ++ ("] run: " ++ cmd)))%string.
  rewrite string_length_app. rewrite re_sub_app_plain by reflexivity.
  cbn [String.length String.append plus].
  rewrite (re_sub_token_step _ _ _ "fab_host" ("] run: " ++ cmd));
    [|exact (match_token_name "fab_host" ("] run: " ++ cmd) ltac:(discriminate) eq_refl)
     |discriminate].
  rewrite Hh. cbn [mbind res_bind].
  rewrite py_format_no_pct by exact Hhp. cbn [mbind res_bind].
  rewrite lazy_format_plain by assumption. cbn [mbind res_bind].
  rewrite re_sub_no_token.
  - reflexivity.
  - rewrite string_length_app. cbn [String.length]. lia.
  - rewrite has_token_app_plain by reflexivity. exact Hct.
Qed.

Lemma local_loop_hosts (dict_repr : gmap string string -> string) (d : nat)
    (subprocess_call : string -> Z) (global_env kwargs g : Env) (cmd : string) (hs : list string) :
  str_has "%" cmd = false -> has_token cmd = false -> subprocess_call cmd = 0%Z ->
  Forall (fun h => str_has "%" h = false /\ has_token h = false) hs ->
  local_loop dict_repr (S (S d)) subprocess_call global_env kwargs cmd
    (map (fun h => <["fab_host" := h]> g) (map PStr hs)) =
    (map (fun h => Print ("[localhost/" ++ h ++ "] run: " ++ cmd)) hs, Ok tt).
Proof.
  intros Hcp Hct Hcall. induction hs as [|h hs IH]; intros Hf; [reflexivity|].
  inversion Hf as [|? ? [Hhp Hht] Hfs]; subst.
  cbn [map local_loop].
  assert (E1 : lazy_fmt dict_repr (S (S d)) (<["fab_host" := PStr h]> g) cmd = Ok cmd).
  { unfold lazy_fmt, _lazy_format. rewrite lazy_format_plain by assumption. reflexivity. }
  assert (E2 : lazy_fmt dict_repr (S (S d)) (<["fab_host" := PStr h]> g)
                 ("[localhost/$(fab_host)] run: " ++ cmd)
               = Ok ("[localhost/" ++ h ++ "] run: " ++ cmd)).
  { unfold lazy_fmt, _lazy_format.
    rewrite (lazy_format_host_line dict_repr d _ h cmd); try assumption; [reflexivity|].
    rewrite lookup_fmap, lookup_insert_eq. reflexivity. }
  rewrite E1. cbn [mbind io_mbind io_bind io_lift]. rewrite E2.
  cbn [mbind io_mbind io_bind io_lift io_emit]. rewrite Hcall. cbn [Z.eqb].
  rewrite (IH Hfs). reflexivity.
Qed.

(** X12: before any connection, [local_per_host] takes each [fab_hosts]
    entry in turn as [fab_host] of a copy of [ENV]: for plain host names
    and a plain command that succeeds, it prints
    [[localhost/<host>] run: <cmd>] once per host, in order. *)
Theorem local_per_host_each_host (dict_repr : gmap string string -> string) (d : nat)
    (subprocess_call : string -> Z) (g : Env) (users : gmap string Env)
    (cmd h0 : string) (hs : list string) (kwargs : Env) :
  g !! "fab_hosts" = Some (PList (map PStr (h0 :: hs))) ->
  Forall (fun h => str_has "%" h = false /\ has_token h = false) (h0 :: hs) ->
  str_has "%" cmd = false -> has_token cmd = false -> subprocess_call cmd = 0%Z ->
  local_per_host dict_repr (S (S d)) subprocess_call {| st_global := g; st_users := users |} []
    cmd kwargs =
    (map (fun h => Print ("[localhost/" ++ h ++ "] run: " ++ cmd)) (h0 :: hs), Ok tt).
Proof.
  intros Hg Hf Hcp Hct Hcall. unfold local_per_host, _check_fab_hosts. cbn [st_global].
  rewrite Hg. cbn [mbind io_mbind io_bind io_lift py_len length map].
  cbn [Nat.eqb io_ret].
  unfold per_host_envs. cbn [map st_global]. unfold env_get. rewrite Hg.
  cbn [mbind res_bind py_iter io_lift io_bind].
  rewrite (local_loop_hosts dict_repr d subprocess_call g kwargs g cmd (h0 :: hs) Hcp Hct Hcall Hf).
  reflexivity.
Qed.

Lemma local_per_host_each_host_witness :
  (<["fab_hosts" := PList [PStr "web1"; PStr "web2"]]> (ENV0 "alice" "ts") : Env) !! "fab_hosts"
    = Some (PList (map PStr ["web1"; "web2"]))
  /\ Forall (fun h => str_has "%" h = false /\ has_token h = false) ["web1"; "web2"]
  /\ local_per_host some_dict_repr 2 (fun _ => 0%Z)
       {| st_global := <["fab_hosts" := PList [PStr "web1"; PStr "web2"]]> (ENV0 "alice" "ts");
          st_users := ∅ |} [] "make" ∅
     = ([Print "[localhost/web1] run: make"; Print "[localhost/web2] run: make"], Ok tt).
Proof.
  assert (H1 : (<["fab_hosts" := PList [PStr "web1"; PStr "web2"]]> (ENV0 "alice" "ts") : Env)
                 !! "fab_hosts" = Some (PList (map PStr ["web1"; "web2"])))
    by (rewrite lookup_insert_eq; reflexivity).
  assert (H2 : Forall (fun h => str_has "%" h = false /\ has_token h = false) ["web1"; "web2"])
    by (repeat constructor).
  split; [exact H1|]. split; [exact H2|].
  exact (local_per_host_each_host some_dict_repr 0 (fun _ => 0%Z)
           (<["fab_hosts" := PList [PStr "web1"; PStr "web2"]]> (ENV0 "alice" "ts")) ∅
           "make" "web1" ["web2"] ∅ H1 H2 eq_refl eq_refl eq_refl).
Defined.

(** ** [getAny] *)

(** X13: [getAny] returns either [None] or a true value stored under one
    of the names; it returns [None] exactly when none of the names holds a
    true value. *)
Theorem getAny_result (env : Env) (names : list string) :
  (getAny env names = PNone
   \/ (truthy (getAny env names) = true
       /\ exists n, In n names /\ env !! n = Some (getAny env names)))
  /\ (getAny env names = PNone <->
      Forall (fun n => forall v, env !! n = Some v -> truthy v = false) names).
Proof.
  induction names as [|n names [IH1 IH2]]; cbn [getAny].
  - split; [left; reflexivity|]. split; intros _; [constructor|reflexivity].
  - destruct (env !! n) as [v|] eqn:E; [destruct (truthy v) eqn:T|].
    + split.
      * right. split; [exact T|]. exists n. split; [left; reflexivity|exact E].
      * split; [intros ->; discriminate|].
        intros H. inversion H as [|? ? Hn _]; subst. rewrite (Hn v E) in T. discriminate.
    + split.
      * destruct IH1 as [IH1|(Ht & m & Hm & Hv)]; [left; exact IH1|].
        right. split; [exact Ht|]. exists m. split; [right; exact Hm|exact Hv].
      * rewrite IH2. split.
        -- intros H. constructor; [|exact H]. intros v' E'. congruence.
        -- intros H. inversion H; assumption.
    + split.
      * destruct IH1 as [IH1|(Ht & m & Hm & Hv)]; [left; exact IH1|].
        right. split; [exact Ht|]. exists m. split; [right; exact Hm|exact Hv].
      * rewrite IH2. split.
        -- intros H. constructor; [|exact H]. intros v' E'. congruence.
        -- intros H. inversion H; assumption.
Qed.

(** X14: [getAny] over [names1 + names2] is [getAny] over [names1] when
    that finds a value, else [getAny] over [names2]. *)
Theorem getAny_app (env : Env) (names1 names2 : list string) :
  getAny env (names1 ++ names2) =
    match getAny env names1 with PNone => getAny env names2 | v => v end.
Proof.
  induction names1 as [|n names1 IH]; [reflexivity|]. cbn [app getAny].
  destruct (env !! n) as [v|] eqn:E; [|exact IH].
  destruct (truthy v) eqn:T; [|exact IH].
  destruct v; try reflexivity. discriminate.
Qed.

(** ** [call_once] *)

(** X15: over any sequence of [call_once] calls, each command is called
    at most once: the commands called are exactly the given ones not
    already in [_CALLED_COMMANDS], without repetition; every call prints
    one line; afterwards [_CALLED_COMMANDS] holds every command given. *)
Theorem call_once_seq_at_most_once (cs : list command) :
  forall called,
  let '(called', out, ran) := call_once_seq called cs in
  NoDup ran
  /\ (forall i, i ∈ ran <-> i ∈ map cmd_id cs /\ i ∉ called)
  /\ called' = called ∪ list_to_set (map cmd_id cs)
  /\ length out = length cs.
Proof.
  induction cs as [|c cs IH]; intros called.
  - cbn. split; [constructor|]. split; [set_solver|]. split; [set_solver|reflexivity].
  - cbn [call_once_seq]. unfold call_once.
    destruct (decide (cmd_id c ∈ called)) as [Hin|Hin].
    + specialize (IH called). destruct (call_once_seq called cs) as [[called2 o2] rs].
      destruct IH as (Hnd & Hran & Hset & Hlen).
      split; [exact Hnd|]. split; [|split].
      * intros i. rewrite Hran. cbn [map]. set_solver.
      * rewrite Hset. cbn [map list_to_set]. set_solver.
      * cbn [length app]. rewrite Hlen. reflexivity.
    + specialize (IH ({[cmd_id c]} ∪ called)).
      destruct (call_once_seq ({[cmd_id c]} ∪ called) cs) as [[called2 o2] rs].
      destruct IH as (Hnd & Hran & Hset & Hlen).
      split; [|split; [|split]].
      * constructor; [|exact Hnd]. rewrite Hran. set_solver.
      * intros i. rewrite elem_of_cons, Hran. cbn [map]. rewrite elem_of_cons.
        destruct (decide (i = cmd_id c)) as [->|Hne].
        -- split; [intros _; split; [left; reflexivity|exact Hin]|intros _; left; reflexivity].
        -- rewrite elem_of_union, elem_of_singleton. split.
           ++ intros [E|[Hm Hc]]; [congruence|]. split; [right; exact Hm|tauto].
           ++ intros [[E|Hm] Hc]; [congruence|]. right. split; [exact Hm|tauto].
      * rewrite Hset. cbn [map list_to_set]. set_solver.
      * cbn [length app]. rewrite Hlen. reflexivity.
Qed.

(** ** [_on_hosts_do] *)

(** X16: [_on_hosts_do] runs the strategy named by [fab_mode]; any other
    string stops the run with status 1 after naming the mode and the
    supported ones, without invoking the operation on any host. *)
Theorem on_hosts_do_dispatch (dict_repr : gmap string string -> string) (depth : nat)
    {S} (fn_name : string) (fn : S -> pyval -> option nat -> Env -> Env -> S * op_outcome)
    (s : S) (st : store) (conns : list hconn) (kwargs env : Env) (order : bool) (mode : string) :
  env !! "fab_mode" = Some (PStr mode) ->
  (mode = "rolling" ->
   _on_hosts_do (fabric_strategies dict_repr depth fn_name fn s st conns kwargs order) env =
     snd (_rolling_strategy dict_repr depth S fn_name fn s st conns kwargs))
  /\ (mode = "fanout" ->
   _on_hosts_do (fabric_strategies dict_repr depth fn_name fn s st conns kwargs order) env =
     snd (_fanout_strategy dict_repr depth S fn_name fn s st conns kwargs))
  /\ (mode <> "rolling" -> mode <> "fanout" ->
      _on_hosts_do (fabric_strategies dict_repr depth fn_name fn s st conns kwargs order) env =
        ([Print ("Unsupported fab_mode: " ++ mode);
          Print ("Supported modes are: " ++ if order then "rolling, fanout" else "fanout, rolling")],
         Err (SystemExit 1))).
Proof.
  intros Hm. unfold _on_hosts_do, env_get. rewrite Hm. cbn [mbind io_mbind io_bind io_lift].
  split; [|split].
  - intros ->. unfold fabric_strategies.
    destruct order; cbn;
      destruct (snd (_rolling_strategy dict_repr depth S fn_name fn s st conns kwargs)); reflexivity.
  - intros ->. unfold fabric_strategies.
    destruct order; cbn;
      destruct (snd (_fanout_strategy dict_repr depth S fn_name fn s st conns kwargs)); reflexivity.
  - intros H1 H2. unfold fabric_strategies.
    apply String.eqb_neq in H1, H2. rewrite String.eqb_sym in H1, H2.
    destruct order; cbn [find fst]; rewrite ?H1, ?H2; reflexivity.
Qed.

Lemma on_hosts_do_dispatch_witness :
  ({["fab_mode" := PStr "parallel"]} : Env) !! "fab_mode" = Some (PStr "parallel")
  /\ "parallel" <> "rolling" /\ "parallel" <> "fanout"
  /\ _on_hosts_do (fabric_strategies some_dict_repr 10 "run" op_false tt run_store run_conns ∅ true)
       {["fab_mode" := PStr "parallel"]}
     = ([Print "Unsupported fab_mode: parallel"; Print "Supported modes are: rolling, fanout"],
        Err (SystemExit 1)).
Proof.
  assert (H0 : ({["fab_mode" := PStr "parallel"]} : Env) !! "fab_mode" = Some (PStr "parallel"))
    by reflexivity.
  assert (H1 : "parallel" <> "rolling") by discriminate.
  assert (H2 : "parallel" <> "fanout") by discriminate.
  split; [exact H0|]. split; [exact H1|]. split; [exact H2|].
  destruct (on_hosts_do_dispatch some_dict_repr 10 "run" op_false tt run_store run_conns ∅
              {["fab_mode" := PStr "parallel"]} true "parallel" H0) as [_ [_ H]].
  exact (H H1 H2).
Defined.

(** ** [set] *)

Section SetLemmas.

Variable pct : Env -> string -> res string.
Hypothesis pct_plain : forall env s, str_has "%" s = false -> pct env s = Ok s.

Lemma set_vars_plain (vs : list (string * pyval)) :
  forall env, Forall plain_value vs ->
  set_vars pct env vs = (fold_left (fun e kv => <[fst kv := snd kv]> e) vs env, Ok tt).
Proof.
  induction vs as [|[k v] vs IH]; intros env H; [reflexivity|].
  inversion H as [|? ? Hv Hvs]; subst. unfold plain_value in Hv. cbn [snd] in Hv.
  cbn [set_vars fold_left fst snd].
  destruct v; try exact (IH _ Hvs).
  rewrite (pct_plain env s Hv). exact (IH _ Hvs).
Qed.

End SetLemmas.

(** X17: when [v % ENV] leaves text without [%] as it is, [set] is
    [ENV.update(variables)] in the order of [items()].  A string value
    whose formatting raises in the [ENV] that [set] has reached, after the
    variables before it, stops [set] with that error, those variables being
    already set and the ones after it not. *)
Theorem set_vars_update (pct : Env -> string -> res string)
    (pct_plain : forall env s, str_has "%" s = false -> pct env s = Ok s)
    (env : Env) (pre post : list (string * pyval)) (k bad : string) (e : pyexc) :
  (Forall plain_value pre ->
   set_vars pct env pre = (fold_left (fun e kv => <[fst kv := snd kv]> e) pre env, Ok tt))
  /\ (forall env_pre : Env,
      set_vars pct env pre = (env_pre, Ok tt) -> pct env_pre bad = Err e ->
      set_vars pct env (pre ++ (k, PStr bad) :: post)%list = (env_pre, Err e)).
Proof.
  split; [exact (set_vars_plain pct pct_plain pre env)|].
  revert env. induction pre as [|[k' v'] pre IH]; intros env env_pre Hpre Hbad.
  - cbn [set_vars] in Hpre. injection Hpre as <-. cbn [app set_vars]. rewrite Hbad. reflexivity.
  - cbn [app set_vars] in Hpre |- *.
    destruct v' as [s| | | |]; try exact (IH _ _ Hpre Hbad).
    destruct (pct env s); [exact (IH _ _ Hpre Hbad)|discriminate].
Qed.

Lemma set_vars_update_witness :
  (forall env s, str_has "%" s = false -> py_format some_dict_repr (py_str <$> env) s = Ok s)
  /\ Forall plain_value [("fab_user", PStr "bob"); ("fab_port", PInt 2222)]
  /\ set_vars (fun env s => py_format some_dict_repr (py_str <$> env) s) (ENV0 "alice" "ts")
       [("fab_user", PStr "bob"); ("fab_port", PInt 2222)]
     = (<["fab_port" := PInt 2222]> (<["fab_user" := PStr "bob"]> (ENV0 "alice" "ts")), Ok tt)
  /\ py_format some_dict_repr
       (py_str <$> <["fab_port" := PInt 2222]> (<["fab_user" := PStr "bob"]> (ENV0 "alice" "ts")))
       "%(deploy_dir)s/app" = Err KeyError
  /\ set_vars (fun env s => py_format some_dict_repr (py_str <$> env) s) (ENV0 "alice" "ts")
       ([("fab_user", PStr "bob"); ("fab_port", PInt 2222)] ++
        ("target", PStr "%(deploy_dir)s/app") :: [("deploy_dir", PStr "/srv")])%list
     = (<["fab_port" := PInt 2222]> (<["fab_user" := PStr "bob"]> (ENV0 "alice" "ts")),
        Err KeyError).
Proof.
  assert (H0 : forall env s, str_has "%" s = false ->
                 py_format some_dict_repr (py_str <$> env) s = Ok s)
    by (intros env s Hs; apply py_format_no_pct; exact Hs).
  assert (H1 : Forall plain_value [("fab_user", PStr "bob"); ("fab_port", PInt 2222)])
    by (repeat constructor).
  destruct (set_vars_update (fun env s => py_format some_dict_repr (py_str <$> env) s) H0
              (ENV0 "alice" "ts") [("fab_user", PStr "bob"); ("fab_port", PInt 2222)]
              [("deploy_dir", PStr "/srv")] "target" "%(deploy_dir)s/app" KeyError)
    as [Hok Herr].
  assert (H2 : set_vars (fun env s => py_format some_dict_repr (py_str <$> env) s)
                 (ENV0 "alice" "ts") [("fab_user", PStr "bob"); ("fab_port", PInt 2222)]
               = (<["fab_port" := PInt 2222]> (<["fab_user" := PStr "bob"]> (ENV0 "alice" "ts")),
                  Ok tt))
    by exact (Hok H1).
  assert (H3 : py_format some_dict_repr
                 (py_str <$> <["fab_port" := PInt 2222]>
                   (<["fab_user" := PStr "bob"]> (ENV0 "alice" "ts")))
                 "%(deploy_dir)s/app" = Err KeyError)
    by (vm_compute; reflexivity).
  split; [exact H0|]. split; [exact H1|]. split; [exact H2|]. split; [exact H3|].
  exact (Herr _ H2 H3).
Defined.

(** ** The rolling strategy under the ignore policy *)

Section IgnoreLemmas.

Variable dict_repr : gmap string string -> string.
Variable depth : nat.
Variable op_state : Type.
Variable fn_name : string.
Variable fn : op_state -> pyval -> option nat -> Env -> Env -> op_state * op_outcome.

Lemma fail_ignore (kwargs : Env) (msg : string) (env : Env) (prefix : string) :
  fail_code kwargs env = Ok (1, prefix) -> _fail dict_repr depth kwargs msg env = ([], Ok tt).
Proof. intros H. unfold _fail. cbn [mbind io_mbind io_bind io_lift]. rewrite H. reflexivity. Qed.

Lemma try_run_ignore (s : op_state) (host : pyval) (client : option nat) (env kwargs : Env)
    (prefix : string) :
  fail_code kwargs env = Ok (1, prefix) ->
  (forall code, snd (fn s host client env kwargs) <> ThrewSystemExit code) ->
  _try_run_operation dict_repr depth op_state fn s host client env kwargs =
    (fst (fn s host client env kwargs), ([Invoke host client], Ok tt)).
Proof.
  intros Hc Hx. unfold _try_run_operation.
  destruct (fn s host client env kwargs) as [s' out]. cbn [fst snd] in Hx |- *.
  cbn [mbind io_mbind io_bind io_emit].
  destruct out as [v|e|code].
  - destruct (truthy v); [reflexivity|]. rewrite (fail_ignore _ _ _ prefix Hc). reflexivity.
  - rewrite !(fail_ignore _ _ _ prefix Hc). reflexivity.
  - exfalso. exact (Hx code eq_refl).
Qed.

End IgnoreLemmas.

(** X18: when the policy of every connection resolves to ignore and the
    operation never raises [SystemExit], [_rolling_strategy] invokes the
    operation on every connection's host, in order, whatever it returns
    or raises, prints nothing and returns normally. *)
Theorem rolling_ignore_runs_all (dict_repr : gmap string string -> string) (depth : nat)
    (op_state : Type) (fn_name : string)
    (fn : op_state -> pyval -> option nat -> Env -> Env -> op_state * op_outcome)
    (st : store) (kwargs : Env) (prefix : string) (conns : list hconn) :
  (forall s h cl env kw code, snd (fn s h cl env kw) <> ThrewSystemExit code) ->
  Forall (fun c => is_Some (op_env fn_name st c !! "fab_host")
                   /\ fail_code kwargs (op_env fn_name st c) = Ok (1, prefix)) conns ->
  forall s,
  snd (_rolling_strategy dict_repr depth op_state fn_name fn s st conns kwargs) =
    (zip_with Invoke (conn_hosts fn_name st conns) (map client_of conns), Ok tt).
Proof.
  intros Hx Hf. induction conns as [|c conns IH]; intros s; [reflexivity|].
  inversion Hf as [|? ? [[h Hh] Hc] Hfs]; subst.
  cbn [_rolling_strategy]. unfold env_get. rewrite Hh.
  rewrite (try_run_ignore dict_repr depth op_state fn s h (client_of c) (op_env fn_name st c)
             kwargs prefix Hc (Hx s h (client_of c) (op_env fn_name st c) kwargs)).
  specialize (IH Hfs (fst (fn s h (client_of c) (op_env fn_name st c) kwargs))).
  destruct (_rolling_strategy dict_repr depth op_state fn_name fn
              (fst (fn s h (client_of c) (op_env fn_name st c) kwargs)) st conns kwargs)
    as [s2 [o2 r2]].
  cbn [snd] in IH. injection IH as -> ->.
  unfold conn_hosts. cbn [omap list_omap]. rewrite Hh. reflexivity.
Qed.

Lemma rolling_ignore_runs_all_witness :
  (forall s h cl env kw code, snd (op_false s h cl env kw) <> ThrewSystemExit code)
  /\ Forall (fun c => is_Some (op_env "run" run_store c !! "fab_host")
                      /\ fail_code {["fail" := PStr "ignore"]} (op_env "run" run_store c) = Ok (1, ""))
       run_conns
  /\ snd (_rolling_strategy some_dict_repr 10 unit "run" op_false tt run_store run_conns
            {["fail" := PStr "ignore"]})
     = ([Invoke (PStr "A") None; Invoke (PStr "B") None], Ok tt).
Proof.
  assert (H1 : forall s h cl env kw code, snd (op_false s h cl env kw) <> ThrewSystemExit code)
    by (intros; discriminate).
  assert (H2 : Forall (fun c => is_Some (op_env "run" run_store c !! "fab_host")
                      /\ fail_code {["fail" := PStr "ignore"]} (op_env "run" run_store c) = Ok (1, ""))
                 run_conns).
  { repeat constructor; vm_compute; try reflexivity; eexists; reflexivity. }
  split; [exact H1|]. split; [exact H2|].
  exact (rolling_ignore_runs_all some_dict_repr 10 unit "run" op_false run_store
           {["fail" := PStr "ignore"]} "" run_conns H1 H2 tt).
Defined.

(** ** [HostConnection.connect] at end of input *)

(** X19: when the first connection attempt is refused for authentication
    and the user ends the input (ctrl-D) at the password prompt,
    [connect] shows the prompt once, prints an empty line and exits with
    status 0, leaving the store unchanged. *)
Theorem connect_eof_exits (dict_repr : gmap string string -> string) (depth : nat)
    (ssh_connect : pyval -> pyval -> pyval -> pyval -> pyval -> pyval -> res unit)
    (st : store) (c : hconn) (inputs : list (option string)) :
  is_Some (conn_env st c !! "fab_new_host_key") ->
  (_do_connect ssh_connect (conn_env st c) = Err AuthenticationException
   \/ _do_connect ssh_connect (conn_env st c) = Err SSHException) ->
  (forall suffix, suffix = ": " \/ suffix = " [Enter for previous]: " -> exists p,
     lazy_fmt dict_repr depth (<["fab_passprompt_suffix" := PStr suffix]> (conn_env st c))
       PASS_PROMPT = Ok p) ->
  (inputs = [] \/ exists rest, inputs = None :: rest) ->
  exists p, connect dict_repr depth ssh_connect st c inputs =
              ([Prompt p; Print ""], Err (SystemExit 0)).
Proof.
  intros [k Hk] Hd Hp Hin. unfold connect, env_get. rewrite Hk.
  cbn [mbind io_mbind io_bind io_lift].
  set (suffix := match conn_env st c !! "fab_password" with
                 | Some p => if truthy p then " [Enter for previous]: " else ": "
                 | None => ": "
                 end).
  destruct (Hp suffix) as [p Ep].
  { unfold suffix. destruct (conn_env st c !! "fab_password") as [v|]; [destruct (truthy v)|];
      tauto. }
  exists p.
  assert (Hl : password_loop dict_repr depth ssh_connect
                 (<["fab_passprompt_suffix" := PStr suffix]> (conn_env st c)) inputs
               = ([Prompt p; Print ""], Err (SystemExit 0))).
  { destruct inputs as [|[i|] rest].
    - cbn [password_loop]. rewrite Ep. reflexivity.
    - destruct Hin as [Hin|[rest' Hin]]; discriminate.
    - cbn [password_loop]. rewrite Ep. reflexivity. }
  destruct Hd as [Hd|Hd]; rewrite Hd; fold suffix; rewrite Hl; reflexivity.
Qed.

Lemma connect_eof_exits_witness :
  is_Some (conn_env run_store (mk_conn "A" 22 "alice" 0) !! "fab_new_host_key")
  /\ (_do_connect (ssh_accepts "s3cret") (conn_env run_store (mk_conn "A" 22 "alice" 0))
        = Err AuthenticationException
      \/ _do_connect (ssh_accepts "s3cret") (conn_env run_store (mk_conn "A" 22 "alice" 0))
        = Err SSHException)
  /\ (forall suffix, suffix = ": " \/ suffix = " [Enter for previous]: " -> exists p,
        lazy_fmt some_dict_repr 10
          (<["fab_passprompt_suffix" := PStr suffix]> (conn_env run_store (mk_conn "A" 22 "alice" 0)))
          PASS_PROMPT = Ok p)
  /\ exists p, connect some_dict_repr 10 (ssh_accepts "s3cret") run_store
                 (mk_conn "A" 22 "alice" 0) [None] = ([Prompt p; Print ""], Err (SystemExit 0)).
Proof.
  assert (H1 : is_Some (conn_env run_store (mk_conn "A" 22 "alice" 0) !! "fab_new_host_key"))
    by (vm_compute; eexists; reflexivity).
  assert (H2 : _do_connect (ssh_accepts "s3cret") (conn_env run_store (mk_conn "A" 22 "alice" 0))
                 = Err AuthenticationException
               \/ _do_connect (ssh_accepts "s3cret") (conn_env run_store (mk_conn "A" 22 "alice" 0))
                 = Err SSHException)
    by (left; vm_compute; reflexivity).
  assert (H3 : forall suffix, suffix = ": " \/ suffix = " [Enter for previous]: " -> exists p,
             lazy_fmt some_dict_repr 10
               (<["fab_passprompt_suffix" := PStr suffix]> (conn_env run_store (mk_conn "A" 22 "alice" 0)))
               PASS_PROMPT = Ok p).
  { intros suffix [-> | ->]; eexists; vm_compute; reflexivity. }
  split; [exact H1|]. split; [exact H2|]. split; [exact H3|].
  exact (connect_eof_exits some_dict_repr 10 (ssh_accepts "s3cret") run_store
           (mk_conn "A" 22 "alice" 0) [None] H1 H2 H3 (or_intror (ex_intro _ [] eq_refl))).
Defined.
